(** * distributeFlexBoxLayout: one-axis space distribution

    A shallow embedding of
    [src/vs/editor/contrib/inlineCompletions/browser/view/inlineEdits/inlineEditsViews/flexBoxLayout.ts]
    and the properties of its specification.

    Numbers.  The source computes on JavaScript numbers, IEEE 754 binary64.
    The function is embedded twice.

    [Double] is the function on binary64 numbers, the kernel's primitive
    floats: every operation rounds as the source's does, and a field may
    hold any number.  What depends on the value of a sum, a difference, a
    product or a quotient is stated and proved there, and the calls that
    settle a property are evaluated there.

    The definitions outside [Double] read the same lines in exact
    arithmetic: a finite number is a rational ([Q], compared with [==]), and
    the only non-finite number is [+Infinity], the default of [max].  They
    carry the properties that rest on the structure of the code, on
    comparisons and on operations that round nothing: the regions of share
    0, the [width] field, the keys of the result, the frame of a round, the
    order of the tiers.

    Objects.  The [parts] object is the list of its entries in enumeration
    order; its keys are distinct, which is assumed ([NoDup]) where a property
    depends on it.

    Trace.  The loops return, besides what the source computes, a record of
    every executed round and of [iterationCount] per tier.  Nothing in the
    computation reads them. *)

From Stdlib Require Import PrimFloat.
Set Warnings "-inexact-float".
From Stdlib Require FloatClass SpecFloat FloatOps FloatAxioms.
From Stdlib Require Import QArith Qabs Lqa Lia List String Bool.
Import ListNotations.

Open Scope Q_scope.

(** ** Numbers *)

Inductive number : Type :=
| Finite (q : Q)
| Infinity.

(** [a + b] where [b] may be infinite. *)
Definition numAdd (a b : number) : number :=
  match a, b with
  | Finite x, Finite y => Finite (x + y)
  | _, _ => Infinity
  end.

(** [a < b] for a possibly infinite [a] and a finite [b]. *)
Definition numLtQ (a : number) (b : Q) : bool :=
  match a with
  | Finite x => negb (Qle_bool b x)
  | Infinity => false
  end.

(** [a < b] for a finite [a] and a possibly infinite [b]. *)
Definition qLtNum (a : Q) (b : number) : bool :=
  match b with
  | Finite y => negb (Qle_bool y a)
  | Infinity => true
  end.

(** [a < b] on finite numbers. *)
Definition Qltb (a b : Q) : bool := negb (Qle_bool b a).

(** [b - a] for a possibly infinite [b]. *)
Definition numSubQ (b : number) (a : Q) : number :=
  match b with
  | Finite y => Finite (y - a)
  | Infinity => Infinity
  end.

(** [Math.min(a, b)] for a finite [a]. *)
Definition mathMin (a : Q) (b : number) : Q :=
  match b with
  | Finite y => if Qle_bool a y then a else y
  | Infinity => a
  end.


(** ** Data model *)

Module IFlexBoxPart.
Record t : Type := mk {
  width : option Q;
  min : option Q;
  max : option number;
  priority : option Q;
  share : option Q
}.
End IFlexBoxPart.

(** A value of the [parts] record: one part or an array of parts. *)
Inductive PartOrArray : Type :=
| Single (part : IFlexBoxPart.t)
| Array (part : list IFlexBoxPart.t).

(** The [parts] object, as its own enumerable properties in [for ... in]
    order.  The keys of an object are distinct. *)
Definition Parts : Type := list (string * PartOrArray).

Module FlatPart.
Record t : Type := mk {
  key : string;
  index : option nat;
  min : Q;
  max : number;
  priority : Q;
  share : Q;
  allocatedSize : Q
}.

Definition setAllocatedSize (p : t) (size : Q) : t :=
  mk (key p) (index p) (min p) (max p) (priority p) (share p) size.
End FlatPart.

(** [x ?? d] *)
Definition orDefault {A : Type} (x : option A) (d : A) : A :=
  match x with
  | Some v => v
  | None => d
  end.

(** ** Flattening (lines 51-76) *)

Definition flatPartOf (key : string) (index : option nat) (part : IFlexBoxPart.t)
  : FlatPart.t :=
  FlatPart.mk key index
    (orDefault (IFlexBoxPart.min part) 0)
    (orDefault (IFlexBoxPart.max part) Infinity)
    (orDefault (IFlexBoxPart.priority part) 0)
    (orDefault (IFlexBoxPart.share part) 1)
    0.

Fixpoint flattenArray (key : string) (i : nat) (part : list IFlexBoxPart.t)
  : list FlatPart.t :=
  match part with
  | [] => []
  | p :: rest => flatPartOf key (Some i) p :: flattenArray key (S i) rest
  end.

Fixpoint flatten (parts : Parts) : list FlatPart.t :=
  match parts with
  | [] => []
  | (key, Single part) :: rest => flatPartOf key None part :: flatten rest
  | (key, Array part) :: rest => flattenArray key 0 part ++ flatten rest
  end.

(** ** Feasibility (lines 78-88) *)

Definition totalMinOf (flatParts : list FlatPart.t) : Q :=
  fold_left (fun sum p => sum + FlatPart.min p) flatParts 0.

Definition totalMaxOf (flatParts : list FlatPart.t) : number :=
  fold_left (fun sum p => numAdd sum (FlatPart.max p)) flatParts (Finite 0).

(** ** Minimum allocation (lines 90-93) *)

Definition allocateMin (flatParts : list FlatPart.t) : list FlatPart.t :=
  map (fun part => FlatPart.setAllocatedSize part (FlatPart.min part)) flatParts.

(** ** Priorities (line 98) *)

(** [new Set(...)]: first occurrences, in insertion order. *)
Fixpoint memQ (x : Q) (l : list Q) : bool :=
  match l with
  | [] => false
  | y :: rest => Qeq_bool y x || memQ x rest
  end.

Fixpoint uniqueFrom (seen : list Q) (l : list Q) : list Q :=
  match l with
  | [] => []
  | x :: rest =>
      if memQ x seen then uniqueFrom seen rest
      else x :: uniqueFrom (x :: seen) rest
  end.

(** [.sort((a, b) => b - a)] on distinct numbers: descending order. *)
Fixpoint insertDesc (x : Q) (l : list Q) : list Q :=
  match l with
  | [] => [x]
  | y :: rest => if Qle_bool y x then x :: l else y :: insertDesc x rest
  end.

Fixpoint sortDesc (l : list Q) : list Q :=
  match l with
  | [] => []
  | x :: rest => insertDesc x (sortDesc rest)
  end.

Definition prioritiesOf (flatParts : list FlatPart.t) : list Q :=
  sortDesc (uniqueFrom [] (map FlatPart.priority flatParts)).

(** ** The tier loop (lines 101-156) *)

(** The literal [0.001]. *)
Definition epsilon : Q := 1 # 1000.

(** [p.priority === priority] *)
Definition atPriority (priority : Q) (p : FlatPart.t) : bool :=
  Qeq_bool (FlatPart.priority p) priority.

(** [part.allocatedSize < part.max]; its negation is the [>=] of line 135. *)
Definition belowMax (part : FlatPart.t) : bool :=
  qLtNum (FlatPart.allocatedSize part) (FlatPart.max part).

(** [partsAtPriority] holds references to the objects of [flatParts], and
    [priority] is never written: filtering the current [flatParts] gives the
    same objects, in the same order, with their current [allocatedSize]. *)
Definition partsAtPriorityOf (priority : Q) (flatParts : list FlatPart.t)
  : list FlatPart.t :=
  filter (atPriority priority) flatParts.

Definition totalShareOf (partsAtPriority : list FlatPart.t) : Q :=
  fold_left (fun sum p => sum + FlatPart.share p) partsAtPriority 0.

(** Lines 124-128. *)
Fixpoint activeShareLoop (partsAtPriority : list FlatPart.t) (activeShare : Q) : Q :=
  match partsAtPriority with
  | [] => activeShare
  | part :: rest =>
      if belowMax part
      then activeShareLoop rest (activeShare + FlatPart.share part)
      else activeShareLoop rest activeShare
  end.

(** Lines 139-142. *)
Definition actualIncreaseOf (spaceToDistribute activeShare : Q) (part : FlatPart.t) : Q :=
  let shareRatio := FlatPart.share part / activeShare in
  let desiredIncrease := spaceToDistribute * shareRatio in
  let maxIncrease := numSubQ (FlatPart.max part) (FlatPart.allocatedSize part) in
  mathMin desiredIncrease maxIncrease.

(** Lines 134-146, run over [flatParts]: the parts of another priority are
    not in [partsAtPriority] and stay as they are. *)
Fixpoint growLoop (priority spaceToDistribute activeShare : Q)
  (flatParts : list FlatPart.t) (distributedThisRound : Q)
  : list FlatPart.t * Q :=
  match flatParts with
  | [] => ([], distributedThisRound)
  | part :: rest =>
      if atPriority priority part && belowMax part then
        let actualIncrease := actualIncreaseOf spaceToDistribute activeShare part in
        let part' :=
          FlatPart.setAllocatedSize part (FlatPart.allocatedSize part + actualIncrease) in
        let (rest', distributed) :=
          growLoop priority spaceToDistribute activeShare rest
            (distributedThisRound + actualIncrease) in
        (part' :: rest', distributed)
      else
        let (rest', distributed) :=
          growLoop priority spaceToDistribute activeShare rest distributedThisRound in
        (part :: rest', distributed)
  end.

(** One executed round of the [while] loop, as a ghost record. *)
Record Round : Type := mkRound {
  roundPriority : Q;
  roundSpace : Q;           (* spaceToDistribute on entry *)
  roundActiveShare : Q;
  roundBefore : list FlatPart.t;
  roundAfter : list FlatPart.t;
  roundDistributed : Q      (* distributedThisRound *)
}.

Record TierRun : Type := mkTierRun {
  spaceLeft : Q;                 (* spaceToDistribute at exit *)
  partsLeft : list FlatPart.t;   (* flatParts at exit *)
  iterationCount : nat;
  rounds : list Round
}.

(** Lines 118-153.  [fuel] is [maxIterations - iterationCount]. *)
Fixpoint tierLoop (fuel : nat) (priority spaceToDistribute : Q)
  (flatParts : list FlatPart.t) : TierRun :=
  match fuel with
  | O => mkTierRun spaceToDistribute flatParts 0 []
  | S fuel' =>
      if Qltb epsilon spaceToDistribute then
        let activeShare :=
          activeShareLoop (partsAtPriorityOf priority flatParts) 0 in
        if Qeq_bool activeShare 0 then
          mkTierRun spaceToDistribute flatParts 1 []
        else
          let (flatParts', distributedThisRound) :=
            growLoop priority spaceToDistribute activeShare flatParts 0 in
          let spaceToDistribute' := spaceToDistribute - distributedThisRound in
          let round :=
            mkRound priority spaceToDistribute activeShare flatParts flatParts'
              distributedThisRound in
          if Qltb distributedThisRound epsilon then
            mkTierRun spaceToDistribute' flatParts' 1 [round]
          else
            let r := tierLoop fuel' priority spaceToDistribute' flatParts' in
            mkTierRun (spaceLeft r) (partsLeft r) (S (iterationCount r))
              (round :: rounds r)
      else mkTierRun spaceToDistribute flatParts 0 []
  end.

(** The state of the [for (const priority of priorities)] loop, with the
    runs of the tiers whose [while] loop was reached. *)
Record Distribution : Type := mkDistribution {
  remainingSizeOf : Q;
  flatPartsOf : list FlatPart.t;
  tiersOf : list (Q * TierRun)
}.

(** Lines 101-156. *)
Fixpoint priorityLoop (priorities : list Q) (remainingSize : Q)
  (flatParts : list FlatPart.t) : Distribution :=
  match priorities with
  | [] => mkDistribution remainingSize flatParts []
  | priority :: rest =>
      if Qle_bool remainingSize 0 then
        mkDistribution remainingSize flatParts []
      else
        let partsAtPriority := partsAtPriorityOf priority flatParts in
        let totalShare := totalShareOf partsAtPriority in
        if Qeq_bool totalShare 0 then
          priorityLoop rest remainingSize flatParts
        else
          let maxIterations := (List.length partsAtPriority * 2)%nat in
          let r := tierLoop maxIterations priority remainingSize flatParts in
          let d := priorityLoop rest (spaceLeft r) (partsLeft r) in
          mkDistribution (remainingSizeOf d) (flatPartsOf d)
            ((priority, r) :: tiersOf d)
  end.

(** ** Result (lines 158-173) *)

(** [sizes.reduce((sum, size) => sum + size, 0)] *)
Definition sumSizes (sizes : list Q) : Q :=
  fold_left (fun sum size => sum + size) sizes 0.

(** [p.key === key && p.index === undefined] *)
Definition isSingleOf (key : string) (p : FlatPart.t) : bool :=
  String.eqb (FlatPart.key p) key &&
  match FlatPart.index p with None => true | Some _ => false end.

(** What a call may give: an object of sizes, [null], or the [TypeError] of
    reading [allocatedSize] of [undefined] at line 169. *)
Inductive Outcome : Type :=
| Sizes (result : list (string * Q))
| Null
| TypeError.

Fixpoint buildResult (flatParts : list FlatPart.t) (parts : Parts)
  : option (list (string * Q)) :=
  match parts with
  | [] => Some []
  | (key, Array _) :: rest =>
      let sizes :=
        map FlatPart.allocatedSize
          (filter (fun p => String.eqb (FlatPart.key p) key) flatParts) in
      match buildResult flatParts rest with
      | Some result => Some ((key, sumSizes sizes) :: result)
      | None => None
      end
  | (key, Single _) :: rest =>
      match find (isSingleOf key) flatParts with
      | Some flatPart =>
          match buildResult flatParts rest with
          | Some result => Some ((key, FlatPart.allocatedSize flatPart) :: result)
          | None => None
          end
      | None => None
      end
  end.

(** ** The whole call *)

(** The working state after the tier loop, when the layout is possible. *)
Definition distribute (totalSize : Q) (parts : Parts) : option Distribution :=
  let flatParts := flatten parts in
  let totalMin := totalMinOf flatParts in
  if Qltb totalSize totalMin then None
  else
    let totalMax := totalMaxOf flatParts in
    if numLtQ totalMax totalSize then None
    else
      let flatParts := allocateMin flatParts in
      let remainingSize := totalSize - totalMin in
      let priorities := prioritiesOf flatParts in
      Some (priorityLoop priorities remainingSize flatParts).

Definition distributeFlexBoxLayout (totalSize : Q) (parts : Parts) : Outcome :=
  match distribute totalSize parts with
  | None => Null
  | Some d =>
      match buildResult (flatPartsOf d) parts with
      | Some result => Sizes result
      | None => TypeError
      end
  end.

(** ** Inputs: the call of lines 7-11 and the layouts of the scenarios *)

(** A part given by its [min], [max], [priority] and [share]. *)
Definition part (min : option Q) (max : option number) (priority share : option Q)
  : IFlexBoxPart.t :=
  IFlexBoxPart.mk None min max priority share.

(** [{}] *)
Definition emptyPart : IFlexBoxPart.t := part None None None None.

(** The argument of the call of lines 7-11. *)
Definition layoutParts : Parts :=
  [ ("spaceBefore"%string,
     Single (part (Some 10) (Some (Finite 100)) (Some 2) (Some 1)));
    ("content"%string,
     Array [ part (Some 50) (Some (Finite 100)) (Some 2) (Some 2);
             part (Some 100) (Some (Finite 500)) (Some 1) None ]);
    ("spaceAfter"%string, Single emptyPart) ].

(** Lines 7-11. *)
Definition layout : Outcome := distributeFlexBoxLayout 1000 layoutParts.

(** The all-defaults call of scenario (d). *)
Definition defaultsParts : Parts :=
  [ ("a"%string, Single emptyPart); ("b"%string, Single emptyPart) ].

(** ** The round as a simultaneous update, and the trace of a call *)

(** [Σ] of a list of numbers. *)
Definition sumQ (l : list Q) : Q := fold_right Qplus 0 l.

(** What lines 135-145 do to one part of [flatParts]. *)
Definition growPart (priority spaceToDistribute activeShare : Q) (part : FlatPart.t)
  : FlatPart.t :=
  if atPriority priority part && belowMax part
  then FlatPart.setAllocatedSize part
         (FlatPart.allocatedSize part
          + actualIncreaseOf spaceToDistribute activeShare part)
  else part.

(** What the part adds to [distributedThisRound]. *)
Definition increaseOf (priority spaceToDistribute activeShare : Q) (part : FlatPart.t)
  : Q :=
  if atPriority priority part && belowMax part
  then actualIncreaseOf spaceToDistribute activeShare part
  else 0.

(** A part without its [allocatedSize]. *)
Definition shapeOf (p : FlatPart.t) : FlatPart.t := FlatPart.setAllocatedSize p 0.

(** A logged round is a round of the source: it was entered with more than
    [epsilon] to distribute and a non-zero active share, and its result is
    the simultaneous update. *)
Definition roundOk (priority : Q) (r : Round) : Prop :=
  roundPriority r = priority /\
  epsilon < roundSpace r /\
  roundActiveShare r
    = activeShareLoop (partsAtPriorityOf priority (roundBefore r)) 0 /\
  ~ roundActiveShare r == 0 /\
  roundAfter r
    = map (growPart priority (roundSpace r) (roundActiveShare r)) (roundBefore r) /\
  roundDistributed r
    == sumQ (map (increaseOf priority (roundSpace r) (roundActiveShare r))
               (roundBefore r)).

(** The states of [flatParts] during a round: the loop of lines 134-146
    has visited its first [k] parts, for each [k]. *)
Definition roundStates (r : Round) : list (list FlatPart.t) :=
  map (fun k =>
         fst (growLoop (roundPriority r) (roundSpace r) (roundActiveShare r)
                (firstn k (roundBefore r)) 0)
         ++ skipn k (roundBefore r))
      (seq 0 (S (List.length (roundBefore r)))).

(** Every state of [flatParts] from the end of minimum allocation to the
    return: the state after minimum allocation, the states of every round in
    turn, and the final state. *)
Definition statesOf (totalSize : Q) (parts : Parts) : list (list FlatPart.t) :=
  match distribute totalSize parts with
  | None => []
  | Some d =>
      allocateMin (flatten parts)
      :: flat_map (fun t => flat_map roundStates (rounds (snd t))) (tiersOf d)
      ++ [flatPartsOf d]
  end.

(** ** Vocabulary of the specification *)

(** The region specs of [parts], groups opened in order. *)
Definition regionsOf (parts : Parts) : list IFlexBoxPart.t :=
  flat_map (fun entry =>
              match snd entry with
              | Single part => [part]
              | Array part => part
              end) parts.

(** [min] and [max] of a region spec, defaults applied. *)
Definition minOf (p : IFlexBoxPart.t) : Q := orDefault (IFlexBoxPart.min p) 0.

(** [Σ min] over all regions. *)
Definition sigmaMin (parts : Parts) : Q := sumQ (map minOf (regionsOf parts)).

(** Two results with the same keys, in the same order, and equal numbers. *)
Fixpoint sameSizes (r r' : list (string * Q)) : Prop :=
  match r, r' with
  | [], [] => True
  | (k, v) :: t, (k', v') :: t' => k = k' /\ v == v' /\ sameSizes t t'
  | _, _ => False
  end.

(** The call returned the object [expected]. *)
Definition returns (o : Outcome) (expected : list (string * Q)) : Prop :=
  match o with
  | Sizes result => sameSizes result expected
  | _ => False
  end.

(** [Σ result.values()] *)
Definition sumValues (result : list (string * Q)) : Q := sumQ (map snd result).

(** A part with its [width] removed. *)
Definition withoutWidth (p : IFlexBoxPart.t) : IFlexBoxPart.t :=
  IFlexBoxPart.mk None (IFlexBoxPart.min p) (IFlexBoxPart.max p)
    (IFlexBoxPart.priority p) (IFlexBoxPart.share p).

(** [parts] with every [width] removed. *)
Definition withoutWidths (parts : Parts) : Parts :=
  map (fun entry =>
         (fst entry,
          match snd entry with
          | Single part => Single (withoutWidth part)
          | Array part => Array (map withoutWidth part)
          end)) parts.





(** ** Vocabulary of the further properties *)

(** The key and the [index] of every flat part the loop of lines 52-76
    pushes: a single part has no index, the members of an array are numbered
    from 0. *)
Definition tagsOf (parts : Parts) : list (string * option nat) :=
  flat_map (fun entry =>
              match snd entry with
              | Single _ => [(fst entry, None)]
              | Array part =>
                  map (fun i => (fst entry, Some i)) (seq 0 (List.length part))
              end) parts.

(** The spec of a flat part: [min], [max], [priority] and [share]. *)
Definition specOf (p : FlatPart.t) : Q * number * Q * Q :=
  (FlatPart.min p, FlatPart.max p, FlatPart.priority p, FlatPart.share p).

(** The spec of a region, defaults applied. *)
Definition defaultsOf (p : IFlexBoxPart.t) : Q * number * Q * Q :=
  (orDefault (IFlexBoxPart.min p) 0, orDefault (IFlexBoxPart.max p) Infinity,
   orDefault (IFlexBoxPart.priority p) 0, orDefault (IFlexBoxPart.share p) 1).

(** [max <= min]: the region has no room to grow. *)
Definition noRoom (p : FlatPart.t) : Prop :=
  match FlatPart.max p with
  | Finite m => m <= FlatPart.min p
  | Infinity => False
  end.

(** A part without room is at its minimum. *)
Definition pinned (p : FlatPart.t) : Prop :=
  noRoom p -> FlatPart.allocatedSize p = FlatPart.min p.

(** A layout with a fixed column. *)
Definition fixedColumnParts : Parts :=
  [ ("fixed"%string, Single (part (Some 40) (Some (Finite 40)) (Some 5) None));
    ("flex"%string, Single emptyPart) ].


(** * The function on binary64 numbers

    [Double] is [distributeFlexBoxLayout] on the numbers the source computes
    with: every [+], [-], [*], [/] rounds as IEEE 754 binary64 does, every
    comparison is JavaScript's ([NaN] compares false, [-0] equals [0]).
    Fields may hold any number, [NaN] and the infinities included.

    [.sort((a, b) => b - a)] is modelled for priorities without [NaN], where
    the comparator is a strict order and the result is the descending list;
    with a [NaN] priority the engine's order is implementation-defined. *)

Module Double.

Local Open Scope float_scope.
#[local] Set Warnings "-inexact-float".

(** ** JavaScript's operators on numbers *)

(** [a < b], [a > b], [a <= b], [a >= b], [a === b] *)
Definition lt (a b : float) : bool := a <? b.
Definition gt (a b : float) : bool := b <? a.
Definition le (a b : float) : bool := a <=? b.
Definition ge (a b : float) : bool := b <=? a.
Definition strictEq (a b : float) : bool := a =? b.

Definition isNaN (a : float) : bool := negb (a =? a).

(** The equality of [Set]: [NaN] is itself, [-0] is [0]. *)
Definition sameValueZero (a b : float) : bool :=
  (a =? b) || (isNaN a && isNaN b).

(** [Math.min(a, b)]: [NaN] if either is, [-0] below [0]. *)
Definition mathMin (a b : float) : float :=
  if isNaN a || isNaN b then nan
  else if a <? b then a
  else if b <? a then b
  else match classify a with
       | FloatClass.NZero => a
       | _ => b
       end.

(** ** Data model *)

Module IFlexBoxPart.
Record t : Type := mk {
  width : option float;
  min : option float;
  max : option float;
  priority : option float;
  share : option float
}.
End IFlexBoxPart.

Inductive PartOrArray : Type :=
| Single (part : IFlexBoxPart.t)
| Array (part : list IFlexBoxPart.t).

(** The [parts] object, as its own enumerable properties in [for ... in]
    order. *)
Definition Parts : Type := list (string * PartOrArray).

Module FlatPart.
Record t : Type := mk {
  key : string;
  index : option nat;
  min : float;
  max : float;
  priority : float;
  share : float;
  allocatedSize : float
}.

Definition setAllocatedSize (p : t) (size : float) : t :=
  mk (key p) (index p) (min p) (max p) (priority p) (share p) size.
End FlatPart.

(** ** Flattening (lines 51-76) *)

Definition flatPartOf (key : string) (index : option nat) (part : IFlexBoxPart.t)
  : FlatPart.t :=
  FlatPart.mk key index
    (orDefault (IFlexBoxPart.min part) 0)
    (orDefault (IFlexBoxPart.max part) infinity)
    (orDefault (IFlexBoxPart.priority part) 0)
    (orDefault (IFlexBoxPart.share part) 1)
    0.

Fixpoint flattenArray (key : string) (i : nat) (part : list IFlexBoxPart.t)
  : list FlatPart.t :=
  match part with
  | [] => []
  | p :: rest => flatPartOf key (Some i) p :: flattenArray key (S i) rest
  end.

Fixpoint flatten (parts : Parts) : list FlatPart.t :=
  match parts with
  | [] => []
  | (key, Single part) :: rest => flatPartOf key None part :: flatten rest
  | (key, Array part) :: rest => flattenArray key 0 part ++ flatten rest
  end.

(** ** Feasibility (lines 78-88) *)

Definition totalMinOf (flatParts : list FlatPart.t) : float :=
  fold_left (fun sum p => sum + FlatPart.min p) flatParts 0.

Definition totalMaxOf (flatParts : list FlatPart.t) : float :=
  fold_left (fun sum p => sum + FlatPart.max p) flatParts 0.

(** ** Minimum allocation (lines 90-93) *)

Definition allocateMin (flatParts : list FlatPart.t) : list FlatPart.t :=
  map (fun part => FlatPart.setAllocatedSize part (FlatPart.min part)) flatParts.

(** ** Priorities (line 98) *)

Fixpoint memNumber (x : float) (l : list float) : bool :=
  match l with
  | [] => false
  | y :: rest => sameValueZero y x || memNumber x rest
  end.

(** [new Set(...)]: first occurrences, in insertion order. *)
Fixpoint uniqueFrom (seen : list float) (l : list float) : list float :=
  match l with
  | [] => []
  | x :: rest =>
      if memNumber x seen then uniqueFrom seen rest
      else x :: uniqueFrom (x :: seen) rest
  end.

Fixpoint insertDesc (x : float) (l : list float) : list float :=
  match l with
  | [] => [x]
  | y :: rest => if y <=? x then x :: l else y :: insertDesc x rest
  end.

Fixpoint sortDesc (l : list float) : list float :=
  match l with
  | [] => []
  | x :: rest => insertDesc x (sortDesc rest)
  end.

Definition prioritiesOf (flatParts : list FlatPart.t) : list float :=
  sortDesc (uniqueFrom [] (map FlatPart.priority flatParts)).

(** ** The tier loop (lines 101-156) *)

(** The literal [0.001], the double nearest to it. *)
Definition epsilon : float := 0.001.

(** [p.priority === priority] *)
Definition atPriority (priority : float) (p : FlatPart.t) : bool :=
  strictEq (FlatPart.priority p) priority.

(** [part.allocatedSize < part.max] of line 125. *)
Definition belowMax (part : FlatPart.t) : bool :=
  lt (FlatPart.allocatedSize part) (FlatPart.max part).

(** [part.allocatedSize >= part.max] of line 135: not the negation of line
    125 when one of the two is [NaN]. *)
Definition atMax (part : FlatPart.t) : bool :=
  ge (FlatPart.allocatedSize part) (FlatPart.max part).

(** [partsAtPriority] holds references to the objects of [flatParts]:
    filtering the current [flatParts] gives the same objects with their
    current [allocatedSize]. *)
Definition partsAtPriorityOf (priority : float) (flatParts : list FlatPart.t)
  : list FlatPart.t :=
  filter (atPriority priority) flatParts.

Definition totalShareOf (partsAtPriority : list FlatPart.t) : float :=
  fold_left (fun sum p => sum + FlatPart.share p) partsAtPriority 0.

(** Lines 124-128. *)
Fixpoint activeShareLoop (partsAtPriority : list FlatPart.t) (activeShare : float)
  : float :=
  match partsAtPriority with
  | [] => activeShare
  | part :: rest =>
      if belowMax part
      then activeShareLoop rest (activeShare + FlatPart.share part)
      else activeShareLoop rest activeShare
  end.

(** Lines 139-142. *)
Definition actualIncreaseOf (spaceToDistribute activeShare : float)
  (part : FlatPart.t) : float :=
  let shareRatio := FlatPart.share part / activeShare in
  let desiredIncrease := spaceToDistribute * shareRatio in
  let maxIncrease := FlatPart.max part - FlatPart.allocatedSize part in
  mathMin desiredIncrease maxIncrease.

(** Lines 134-146, run over [flatParts]: the parts of another priority are
    not in [partsAtPriority] and stay as they are. *)
Fixpoint growLoop (priority spaceToDistribute activeShare : float)
  (flatParts : list FlatPart.t) (distributedThisRound : float)
  : list FlatPart.t * float :=
  match flatParts with
  | [] => ([], distributedThisRound)
  | part :: rest =>
      if atPriority priority part && negb (atMax part) then
        let actualIncrease := actualIncreaseOf spaceToDistribute activeShare part in
        let part' :=
          FlatPart.setAllocatedSize part (FlatPart.allocatedSize part + actualIncrease) in
        let (rest', distributed) :=
          growLoop priority spaceToDistribute activeShare rest
            (distributedThisRound + actualIncrease) in
        (part' :: rest', distributed)
      else
        let (rest', distributed) :=
          growLoop priority spaceToDistribute activeShare rest distributedThisRound in
        (part :: rest', distributed)
  end.

(** One executed round of the [while] loop, as a ghost record. *)
Record Round : Type := mkRound {
  roundPriority : float;
  roundSpace : float;           (* spaceToDistribute on entry *)
  roundActiveShare : float;
  roundBefore : list FlatPart.t;
  roundAfter : list FlatPart.t;
  roundDistributed : float      (* distributedThisRound *)
}.

Record TierRun : Type := mkTierRun {
  spaceLeft : float;             (* spaceToDistribute at exit *)
  partsLeft : list FlatPart.t;   (* flatParts at exit *)
  iterationCount : nat;
  rounds : list Round
}.

(** Lines 118-153.  [fuel] is [maxIterations - iterationCount]. *)
Fixpoint tierLoop (fuel : nat) (priority spaceToDistribute : float)
  (flatParts : list FlatPart.t) : TierRun :=
  match fuel with
  | O => mkTierRun spaceToDistribute flatParts 0 []
  | S fuel' =>
      if gt spaceToDistribute epsilon then
        let activeShare :=
          activeShareLoop (partsAtPriorityOf priority flatParts) 0 in
        if strictEq activeShare 0 then
          mkTierRun spaceToDistribute flatParts 1 []
        else
          let (flatParts', distributedThisRound) :=
            growLoop priority spaceToDistribute activeShare flatParts 0 in
          let spaceToDistribute' := spaceToDistribute - distributedThisRound in
          let round :=
            mkRound priority spaceToDistribute activeShare flatParts flatParts'
              distributedThisRound in
          if lt distributedThisRound epsilon then
            mkTierRun spaceToDistribute' flatParts' 1 [round]
          else
            let r := tierLoop fuel' priority spaceToDistribute' flatParts' in
            mkTierRun (spaceLeft r) (partsLeft r) (S (iterationCount r))
              (round :: rounds r)
      else mkTierRun spaceToDistribute flatParts 0 []
  end.

(** A tier whose [while] loop was reached: its priority, [remainingSize] and
    [flatParts] on entry, and its run. *)
Record Tier : Type := mkTier {
  tierPriority : float;
  tierSpace : float;
  tierParts : list FlatPart.t;
  tierRun : TierRun
}.

Record Distribution : Type := mkDistribution {
  remainingSizeOf : float;
  flatPartsOf : list FlatPart.t;
  tiersOf : list Tier
}.

(** [maxIterations] of line 116. *)
Definition maxIterationsOf (priority : float) (flatParts : list FlatPart.t) : nat :=
  (List.length (partsAtPriorityOf priority flatParts) * 2)%nat.

(** Lines 101-156. *)
Fixpoint priorityLoop (priorities : list float) (remainingSize : float)
  (flatParts : list FlatPart.t) : Distribution :=
  match priorities with
  | [] => mkDistribution remainingSize flatParts []
  | priority :: rest =>
      if le remainingSize 0 then
        mkDistribution remainingSize flatParts []
      else
        let partsAtPriority := partsAtPriorityOf priority flatParts in
        let totalShare := totalShareOf partsAtPriority in
        if strictEq totalShare 0 then
          priorityLoop rest remainingSize flatParts
        else
          let maxIterations := maxIterationsOf priority flatParts in
          let r := tierLoop maxIterations priority remainingSize flatParts in
          let d := priorityLoop rest (spaceLeft r) (partsLeft r) in
          mkDistribution (remainingSizeOf d) (flatPartsOf d)
            (mkTier priority remainingSize flatParts r :: tiersOf d)
  end.

(** ** Result (lines 158-173) *)

(** [sizes.reduce((sum, size) => sum + size, 0)] *)
Definition sumSizes (sizes : list float) : float :=
  fold_left (fun sum size => sum + size) sizes 0.

(** [p.key === key && p.index === undefined] *)
Definition isSingleOf (key : string) (p : FlatPart.t) : bool :=
  String.eqb (FlatPart.key p) key &&
  match FlatPart.index p with None => true | Some _ => false end.

Inductive Outcome : Type :=
| Sizes (result : list (string * float))
| Null
| TypeError.

Fixpoint buildResult (flatParts : list FlatPart.t) (parts : Parts)
  : option (list (string * float)) :=
  match parts with
  | [] => Some []
  | (key, Array _) :: rest =>
      let sizes :=
        map FlatPart.allocatedSize
          (filter (fun p => String.eqb (FlatPart.key p) key) flatParts) in
      match buildResult flatParts rest with
      | Some result => Some ((key, sumSizes sizes) :: result)
      | None => None
      end
  | (key, Single _) :: rest =>
      match find (isSingleOf key) flatParts with
      | Some flatPart =>
          match buildResult flatParts rest with
          | Some result => Some ((key, FlatPart.allocatedSize flatPart) :: result)
          | None => None
          end
      | None => None
      end
  end.

(** ** The whole call *)

(** The working state after the tier loop, when the layout is possible. *)
Definition distribute (totalSize : float) (parts : Parts) : option Distribution :=
  let flatParts := flatten parts in
  let totalMin := totalMinOf flatParts in
  if gt totalMin totalSize then None
  else
    let totalMax := totalMaxOf flatParts in
    if lt totalMax totalSize then None
    else
      let flatParts := allocateMin flatParts in
      let remainingSize := totalSize - totalMin in
      let priorities := prioritiesOf flatParts in
      Some (priorityLoop priorities remainingSize flatParts).

Definition distributeFlexBoxLayout (totalSize : float) (parts : Parts) : Outcome :=
  match distribute totalSize parts with
  | None => Null
  | Some d =>
      match buildResult (flatPartsOf d) parts with
      | Some result => Sizes result
      | None => TypeError
      end
  end.

(** ** Inputs *)

(** A part given by its [min], [max], [priority] and [share]. *)
Definition part (min max priority share : option float) : IFlexBoxPart.t :=
  IFlexBoxPart.mk None min max priority share.

(** [{}] *)
Definition emptyPart : IFlexBoxPart.t := part None None None None.

(** The argument of the call of lines 7-11. *)
Definition layoutParts : Parts :=
  [ ("spaceBefore"%string, Single (part (Some 10) (Some 100) (Some 2) (Some 1)));
    ("content"%string,
     Array [ part (Some 50) (Some 100) (Some 2) (Some 2);
             part (Some 100) (Some 500) (Some 1) None ]);
    ("spaceAfter"%string, Single emptyPart) ].

(** [{ a: { share: 0 } }] *)
Definition zeroShareParts : Parts :=
  [ ("a"%string, Single (part None None None (Some 0))) ].

(** [{ a: { max: 1/4096, share: 1023 }, b: {} }]: a tier whose first round
    hands out less than 0.001. *)
Definition negligibleRoundParts : Parts :=
  [ ("a"%string, Single (part None (Some 0.000244140625) None (Some 1023)));
    ("b"%string, Single emptyPart) ].

(** [{ a: { min: 0.3, max: 0.9 } }] *)
Definition clampedParts : Parts :=
  [ ("a"%string, Single (part (Some 0.3) (Some 0.9) None None)) ].

(** [{ a: { share: -1 }, b: { share: 3 } }] *)
Definition negativeShareParts : Parts :=
  [ ("a"%string, Single (part None None None (Some (-1))));
    ("b"%string, Single (part None None None (Some 3))) ].

(** [{ a: { max: 1/4096, priority: 1, share: 1023 }, b: { max: 1, priority: 1 },
    c: {} }]: the upper tier stops on a round of less than 0.001. *)
Definition abandonedTierParts : Parts :=
  [ ("a"%string,
     Single (part None (Some 0.000244140625) (Some 1) (Some 1023)));
    ("b"%string, Single (part None (Some 1) (Some 1) None));
    ("c"%string, Single emptyPart) ].

(** [{ a: { max: 0.1 }, b: { max: 0.3 } }] *)
Definition roundedMaxParts : Parts :=
  [ ("a"%string, Single (part None (Some 0.1) None None));
    ("b"%string, Single (part None (Some 0.3) None None)) ].

(** [{ a: { min: 2^53 }, b: { min: 1 } }] *)
Definition roundedMinParts : Parts :=
  [ ("a"%string, Single (part (Some 9007199254740992) None None None));
    ("b"%string, Single (part (Some 1) None None None)) ].

(** [{ a: { min: 0, max: 10 }, b: { min: 5, max: 15 } }]: equal share, equal
    headroom, unequal minima. *)
Definition unequalMinParts : Parts :=
  [ ("a"%string, Single (part (Some 0) (Some 10) None None));
    ("b"%string, Single (part (Some 5) (Some 15) None None)) ].

(** [{ a: { min: 2, max: 30, share: 3 },
    b: [{ min: 2, max: 30, share: 3 }, { max: 8 }], c: {} }]: [a] and [b[0]]
    have the same spec. *)
Definition twinParts : Parts :=
  [ ("a"%string, Single (part (Some 2) (Some 30) None (Some 3)));
    ("b"%string, Array [ part (Some 2) (Some 30) None (Some 3);
                         part None (Some 8) None None ]);
    ("c"%string, Single emptyPart) ].


(** [{ a: { min: 0, max: 1 }, b: { min: 2, max: 3 } }] *)
Definition shiftedParts : Parts :=
  [ ("a"%string, Single (part (Some 0) (Some 1) None None));
    ("b"%string, Single (part (Some 2) (Some 3) None None)) ].


(** One unbounded region with minimum [m]. *)
Definition probeParts (m : float) : Parts :=
  [ ("a"%string, Single (part (Some m) None None None)) ].

(** [{ a: { max: m }, b: { share: 0 } }]: the first round hands out [m] when
    the total is larger. *)
Definition cappedRoundParts (m : float) : Parts :=
  [ ("a"%string, Single (part None (Some m) None None));
    ("b"%string, Single (part None None None (Some 0))) ].

(** [{ a: { max: 1, share: 3 }, b: {} }] *)
Definition unevenParts : Parts :=
  [ ("a"%string, Single (part None (Some 1) None (Some 3)));
    ("b"%string, Single emptyPart) ].

(** ** The round as a simultaneous update, and the trace of a call *)

(** What lines 135-145 do to one part of [flatParts]. *)
Definition growPart (priority spaceToDistribute activeShare : float)
  (part : FlatPart.t) : FlatPart.t :=
  if atPriority priority part && negb (atMax part)
  then FlatPart.setAllocatedSize part
         (FlatPart.allocatedSize part
          + actualIncreaseOf spaceToDistribute activeShare part)
  else part.

(** A part without its [allocatedSize]. *)
Definition shapeOf (p : FlatPart.t) : FlatPart.t := FlatPart.setAllocatedSize p 0.

(** What holds of every logged round, for an invariant [Inv] of the working
    list: it belongs to its tier, was entered with more than [epsilon] and
    the active share of its state, and is the simultaneous update of a state
    of the invariant. *)
Definition roundFacts (Inv : list FlatPart.t -> Prop) (priority : float)
  (round : Round) : Prop :=
  roundPriority round = priority /\
  gt (roundSpace round) epsilon = true /\
  roundActiveShare round
  = activeShareLoop (partsAtPriorityOf priority (roundBefore round)) 0 /\
  roundAfter round
  = map (growPart priority (roundSpace round) (roundActiveShare round))
      (roundBefore round) /\
  Inv (roundBefore round) /\ Inv (roundAfter round).

(** The rounds of a run pass [spaceToDistribute] on: each is entered with
    what the one before left (line 148), the first with [space], and the
    last leaves [left]. *)
Fixpoint chained (space : float) (rounds : list Round) (left : float) : Prop :=
  match rounds with
  | [] => left = space
  | r :: rest =>
      roundSpace r = space /\
      chained (space - roundDistributed r) rest left
  end.




(** ** Vocabulary of the specification *)

(** The region specs of [parts], groups opened in order. *)
Definition regionsOf (parts : Parts) : list IFlexBoxPart.t :=
  flat_map (fun entry =>
              match snd entry with
              | Single part => [part]
              | Array part => part
              end) parts.

(** [min] and [max] of a region spec, defaults applied. *)
Definition minOf (p : IFlexBoxPart.t) : float := orDefault (IFlexBoxPart.min p) 0.

Definition maxOf (p : IFlexBoxPart.t) : float :=
  orDefault (IFlexBoxPart.max p) infinity.

(** [Σ] as [reduce] accumulates it: from 0, left to right, every addition
    rounded. *)
Definition reduceSum (l : list float) : float := fold_left add l 0.

Definition sigmaMin (parts : Parts) : float := reduceSum (map minOf (regionsOf parts)).

Definition sigmaMax (parts : Parts) : float := reduceSum (map maxOf (regionsOf parts)).

(** A number that is [+Infinity] or [NaN]: what a sum is once it has met
    [+Infinity]. *)
Definition unboundedSum (x : float) : Prop :=
  FloatOps.Prim2SF x = SpecFloat.S754_infinity false \/
  FloatOps.Prim2SF x = SpecFloat.S754_nan.

(** The number a double stands for, as a rational; 0 for [NaN] and the
    infinities. *)
Definition exactly (x : float) : Q :=
  match FloatOps.Prim2SF x with
  | SpecFloat.S754_finite s m e =>
      (if s then -1 else 1)%Q * (inject_Z (Zpos m) * Qpower 2 e)%Q
  | _ => 0%Q
  end.

(** [Σ] without rounding. *)
Definition exactSum (l : list float) : Q :=
  fold_right (fun x s => (exactly x + s)%Q) 0%Q l.

(** [Σ result.values()], accumulated like the sums of the source. *)
Definition sumValues (result : list (string * float)) : float :=
  reduceSum (map snd result).

(** The test of lines 78-88 passes. *)
Definition feasibleAsTested (totalSize : float) (parts : Parts) : Prop :=
  gt (sigmaMin parts) totalSize = false /\
  lt (sigmaMax parts) totalSize = false.

(** The call returned sizes whose sum is more than [epsilon] below
    [totalSize]. *)
Definition missesTotal (totalSize : float) (o : Outcome) : Prop :=
  match o with
  | Sizes result => gt (totalSize - sumValues result) epsilon = true
  | _ => False
  end.

(** [priority], [share], [min], [allocatedSize] and [max] of a part. *)
Definition rowOf (p : FlatPart.t) : float * float * float * float * float :=
  (FlatPart.priority p, FlatPart.share p, FlatPart.min p,
   FlatPart.allocatedSize p, FlatPart.max p).

(** The rows of the working list at the return. *)
Definition finalRows (totalSize : float) (parts : Parts)
  : list (float * float * float * float * float) :=
  match distribute totalSize parts with
  | Some d => map rowOf (flatPartsOf d)
  | None => []
  end.

(** [max - allocatedSize] as line 141 computes it. *)
Definition headroomOf (p : FlatPart.t) : float :=
  FlatPart.max p - FlatPart.allocatedSize p.

(** The spec of a flat part. *)
Definition specOf (p : FlatPart.t) : float * float * float * float :=
  (FlatPart.min p, FlatPart.max p, FlatPart.priority p, FlatPart.share p).

(** The parts at places [i] and [j] of a state have the same spec and the
    same size. *)
Definition twinsAt (i j : nat) (flatParts : list FlatPart.t) : Prop :=
  exists p q,
    nth_error flatParts i = Some p /\ nth_error flatParts j = Some q /\
    specOf p = specOf q /\
    FlatPart.allocatedSize p = FlatPart.allocatedSize q.

(** The states of [flatParts] between rounds: after minimum allocation, after
    every round in turn, and at the return. *)
Definition statesOf (totalSize : float) (parts : Parts) : list (list FlatPart.t) :=
  match distribute totalSize parts with
  | None => []
  | Some d =>
      allocateMin (flatten parts)
      :: flat_map (fun t => map roundAfter (rounds (tierRun t))) (tiersOf d)
      ++ [flatPartsOf d]
  end.

(** [iterationCount] at the exit of every tier that was reached. *)
Definition iterationsOf (totalSize : float) (parts : Parts) : list nat :=
  match distribute totalSize parts with
  | Some d => map (fun t => iterationCount (tierRun t)) (tiersOf d)
  | None => []
  end.

(** [distributedThisRound] of every round, tier by tier. *)
Definition distributedOf (totalSize : float) (parts : Parts) : list (list float) :=
  match distribute totalSize parts with
  | Some d => map (fun t => map roundDistributed (rounds (tierRun t))) (tiersOf d)
  | None => []
  end.

(** How the [while] loop of a tier was left. *)
Inductive Exit : Type :=
| LoopCondition      (* line 118: spaceToDistribute > 0.001 is false *)
| IterationCap       (* line 118: iterationCount reached maxIterations *)
| NoActiveShare      (* line 130 *)
| NegligibleRound.   (* line 150 *)

(** The conditions the source tests, on the state a run ended in. *)
Definition exitHolds (t : Tier) (e : Exit) : Prop :=
  let r := tierRun t in
  match e with
  | LoopCondition => gt (spaceLeft r) epsilon = false
  | IterationCap =>
      iterationCount r = maxIterationsOf (tierPriority t) (tierParts t)
  | NoActiveShare =>
      strictEq
        (activeShareLoop (partsAtPriorityOf (tierPriority t) (partsLeft r)) 0) 0
      = true
  | NegligibleRound =>
      exists earlier round,
        rounds r = earlier ++ [round] /\
        lt (roundDistributed round) epsilon = true
  end.

(** A tolerance [c * |totalSize|] accounts for what the one-region call
    [distributeFlexBoxLayout(totalSize, { a: { min: m } })] does with its
    leftover [totalSize - m]: it is handed out exactly when it exceeds the
    tolerance. *)
Definition toleranceExplains (c : Q) (totalSize m : float) (handedOut : bool)
  : Prop :=
  (handedOut = true <->
   c * Qabs (exactly totalSize) < exactly totalSize - exactly m)%Q.

End Double.
(** ** Comparisons as propositions *)

Lemma Qltb_true (a b : Q) : Qltb a b = true <-> a < b.
Proof.
  unfold Qltb. rewrite negb_true_iff. split.
  - intros H. apply Qnot_le_lt. intros Hle.
    apply Qle_bool_iff in Hle. congruence.
  - intros H. destruct (Qle_bool b a) eqn:E; [|reflexivity].
    apply Qle_bool_iff in E. lra.
Qed.

Lemma Qltb_false (a b : Q) : Qltb a b = false <-> b <= a.
Proof.
  unfold Qltb. rewrite negb_false_iff. apply Qle_bool_iff.
Qed.

Lemma Qle_bool_false (a b : Q) : Qle_bool a b = false <-> b < a.
Proof.
  rewrite <- (Qltb_true b a). unfold Qltb.
  destruct (Qle_bool a b); simpl; intuition congruence.
Qed.

Lemma Qeq_bool_false (a b : Q) : Qeq_bool a b = false <-> ~ a == b.
Proof.
  split.
  - apply Qeq_bool_neq.
  - intros H. destruct (Qeq_bool a b) eqn:E; [|reflexivity].
    apply Qeq_bool_iff in E. contradiction.
Qed.

Lemma qLtNum_true (a : Q) (b : number) :
  qLtNum a b = true <-> match b with Finite y => a < y | Infinity => True end.
Proof.
  destruct b as [y|]; simpl; [apply (Qltb_true a y)|tauto].
Qed.

Lemma qLtNum_false (a : Q) (b : number) :
  qLtNum a b = false <-> match b with Finite y => y <= a | Infinity => False end.
Proof.
  destruct b as [y|]; simpl; [apply (Qltb_false a y)|intuition congruence].
Qed.

Lemma numLtQ_true (a : number) (b : Q) :
  numLtQ a b = true <-> match a with Finite x => x < b | Infinity => False end.
Proof.
  destruct a as [x|]; simpl; [apply (Qltb_true x b)|intuition congruence].
Qed.

(** Turns the boolean tests of the hypotheses into order facts. *)
Ltac qprop :=
  repeat match goal with
  | H : Qltb _ _ = true |- _ => apply Qltb_true in H
  | H : Qltb _ _ = false |- _ => apply Qltb_false in H
  | H : Qle_bool _ _ = true |- _ => apply Qle_bool_iff in H
  | H : Qle_bool _ _ = false |- _ => apply Qle_bool_false in H
  | H : Qeq_bool _ _ = true |- _ => apply Qeq_bool_iff in H
  | H : Qeq_bool _ _ = false |- _ => apply Qeq_bool_false in H
  | H : qLtNum _ _ = true |- _ => apply qLtNum_true in H
  | H : qLtNum _ _ = false |- _ => apply qLtNum_false in H
  | H : numLtQ _ _ = true |- _ => apply numLtQ_true in H
  end.


Lemma growLoop_fst (priority space activeShare : Q) (flatParts : list FlatPart.t) :
  forall distributed,
    fst (growLoop priority space activeShare flatParts distributed)
    = map (growPart priority space activeShare) flatParts.
Proof.
  induction flatParts as [|p rest IH]; intros d; simpl; [reflexivity|].
  unfold growPart at 1.
  destruct (atPriority priority p && belowMax p).
  - specialize (IH (d + actualIncreaseOf space activeShare p)).
    destruct (growLoop priority space activeShare rest _) as [rest' d'].
    simpl in *. now rewrite IH.
  - specialize (IH d).
    destruct (growLoop priority space activeShare rest d) as [rest' d'].
    simpl in *. now rewrite IH.
Qed.

Lemma growLoop_snd (priority space activeShare : Q) (flatParts : list FlatPart.t) :
  forall distributed,
    snd (growLoop priority space activeShare flatParts distributed)
    == distributed + sumQ (map (increaseOf priority space activeShare) flatParts).
Proof.
  induction flatParts as [|p rest IH]; intros d; simpl; [lra|].
  unfold increaseOf at 1.
  destruct (atPriority priority p && belowMax p).
  - specialize (IH (d + actualIncreaseOf space activeShare p)).
    destruct (growLoop priority space activeShare rest _) as [rest' d'].
    simpl in *. rewrite IH. lra.
  - specialize (IH d).
    destruct (growLoop priority space activeShare rest d) as [rest' d'].
    simpl in *. rewrite IH. lra.
Qed.

(** The [while] loop, one iteration unfolded, with the round written as a
    simultaneous update. *)
Lemma tierLoop_step (fuel : nat) (priority space : Q) (flatParts : list FlatPart.t) :
  tierLoop (S fuel) priority space flatParts =
  if Qltb epsilon space then
    let activeShare := activeShareLoop (partsAtPriorityOf priority flatParts) 0 in
    if Qeq_bool activeShare 0 then mkTierRun space flatParts 1 []
    else
      let flatParts' := map (growPart priority space activeShare) flatParts in
      let distributed := snd (growLoop priority space activeShare flatParts 0) in
      let round :=
        mkRound priority space activeShare flatParts flatParts' distributed in
      if Qltb distributed epsilon then
        mkTierRun (space - distributed) flatParts' 1 [round]
      else
        let r := tierLoop fuel priority (space - distributed) flatParts' in
        mkTierRun (spaceLeft r) (partsLeft r) (S (iterationCount r))
          (round :: rounds r)
  else mkTierRun space flatParts 0 [].
Proof.
  simpl. destruct (Qltb epsilon space); [|reflexivity].
  destruct (Qeq_bool _ 0); [reflexivity|].
  rewrite <- growLoop_fst with (distributed := 0).
  destruct (growLoop _ _ _ _ _) as [fp' d]. reflexivity.
Qed.

(** ** What the loops leave untouched *)

Lemma growPart_shape (priority space activeShare : Q) (p : FlatPart.t) :
  shapeOf (growPart priority space activeShare p) = shapeOf p.
Proof.
  unfold growPart. destruct (atPriority priority p && belowMax p); reflexivity.
Qed.

Lemma growPart_shapes (priority space activeShare : Q) (flatParts : list FlatPart.t) :
  map shapeOf (map (growPart priority space activeShare) flatParts)
  = map shapeOf flatParts.
Proof.
  rewrite map_map. apply map_ext. intros p. apply growPart_shape.
Qed.

Lemma tierLoop_shapes (fuel : nat) (priority : Q) :
  forall space flatParts,
    map shapeOf (partsLeft (tierLoop fuel priority space flatParts))
    = map shapeOf flatParts.
Proof.
  induction fuel as [|fuel IH]; intros space fp; [reflexivity|].
  rewrite tierLoop_step. destruct (Qltb epsilon space); [|reflexivity].
  cbv zeta. destruct (Qeq_bool _ 0); [reflexivity|].
  destruct (Qltb _ epsilon); simpl.
  - apply growPart_shapes.
  - rewrite IH. apply growPart_shapes.
Qed.

Lemma priorityLoop_shapes (priorities : list Q) :
  forall remainingSize flatParts,
    map shapeOf (flatPartsOf (priorityLoop priorities remainingSize flatParts))
    = map shapeOf flatParts.
Proof.
  induction priorities as [|priority rest IH]; intros rem fp; [reflexivity|].
  simpl. destruct (Qle_bool rem 0); [reflexivity|].
  destruct (Qeq_bool _ 0); [apply IH|].
  simpl. rewrite IH. apply tierLoop_shapes.
Qed.

Lemma shapes_length (l l' : list FlatPart.t) :
  map shapeOf l = map shapeOf l' -> List.length l = List.length l'.
Proof.
  intros H. rewrite <- (length_map shapeOf l), H. apply length_map.
Qed.

Lemma cons_eq_inv {A : Type} (a b : A) (l l' : list A) :
  a :: l = b :: l' -> a = b /\ l = l'.
Proof. intros H. injection H. auto. Qed.

Lemma shapes_nth (l l' : list FlatPart.t) (i : nat) (p : FlatPart.t) :
  map shapeOf l = map shapeOf l' ->
  nth_error l i = Some p ->
  exists p', nth_error l' i = Some p' /\ shapeOf p' = shapeOf p.
Proof.
  intros H Hp.
  assert (E : nth_error (map shapeOf l') i = Some (shapeOf p)).
  { rewrite <- H. now apply map_nth_error. }
  destruct (nth_error l' i) as [p'|] eqn:E'.
  - exists p'. split; [reflexivity|].
    apply (map_nth_error shapeOf) in E'. congruence.
  - apply nth_error_None in E'.
    assert (nth_error (map shapeOf l') i = None)
      by (apply nth_error_None; now rewrite length_map).
    congruence.
Qed.

(** The fields of a part are read off its shape. *)
Lemma shape_fields (p q : FlatPart.t) :
  shapeOf p = shapeOf q ->
  FlatPart.key p = FlatPart.key q /\ FlatPart.index p = FlatPart.index q /\
  FlatPart.min p = FlatPart.min q /\ FlatPart.max p = FlatPart.max q /\
  FlatPart.priority p = FlatPart.priority q /\ FlatPart.share p = FlatPart.share q.
Proof.
  destruct p, q. cbn. intros H. injection H. intros. subst. tauto.
Qed.

(** ** Invariants of the working list *)

Section Invariant.

Variable Inv : list FlatPart.t -> Prop.

Hypothesis Inv_round : forall priority space flatParts,
  Inv flatParts ->
  epsilon < space ->
  ~ activeShareLoop (partsAtPriorityOf priority flatParts) 0 == 0 ->
  Inv (map (growPart priority space
              (activeShareLoop (partsAtPriorityOf priority flatParts) 0))
         flatParts).

Lemma tierLoop_invariant (fuel : nat) (priority : Q) :
  forall space flatParts,
    Inv flatParts ->
    let r := tierLoop fuel priority space flatParts in
    Inv (partsLeft r) /\
    Forall (fun round => roundOk priority round /\ Inv (roundBefore round)
                         /\ Inv (roundAfter round)) (rounds r).
Proof.
  induction fuel as [|fuel IH]; intros space fp HI; cbv zeta.
  - simpl. split; [assumption|constructor].
  - rewrite tierLoop_step.
    destruct (Qltb epsilon space) eqn:Hs; [|split; [assumption|constructor]].
    cbv zeta.
    destruct (Qeq_bool _ 0) eqn:Ha; [split; [assumption|constructor]|].
    qprop.
    pose proof (Inv_round priority space fp HI Hs Ha) as HI'.
    assert (Hok : roundOk priority
              (mkRound priority space
                 (activeShareLoop (partsAtPriorityOf priority fp) 0) fp
                 (map (growPart priority space
                    (activeShareLoop (partsAtPriorityOf priority fp) 0)) fp)
                 (snd (growLoop priority space
                    (activeShareLoop (partsAtPriorityOf priority fp) 0) fp 0)))).
    { unfold roundOk. simpl. repeat (split; [first [reflexivity|assumption]|]).
      rewrite growLoop_snd. lra. }
    destruct (Qltb _ epsilon) eqn:Hd; simpl.
    + split; [assumption|]. constructor; [|constructor]. simpl. auto.
    + destruct (IH (space - snd (growLoop priority space
                 (activeShareLoop (partsAtPriorityOf priority fp) 0) fp 0))
                 _ HI') as [H1 H2].
      split; [assumption|]. constructor; [|assumption]. simpl. auto.
Qed.

Lemma priorityLoop_invariant (priorities : list Q) :
  forall remainingSize flatParts,
    Inv flatParts ->
    let d := priorityLoop priorities remainingSize flatParts in
    Inv (flatPartsOf d) /\
    Forall (fun t => Forall (fun round => roundOk (fst t) round
                               /\ Inv (roundBefore round)
                               /\ Inv (roundAfter round)) (rounds (snd t)))
      (tiersOf d).
Proof.
  induction priorities as [|priority rest IH]; intros rem fp HI; cbv zeta.
  - simpl. split; [assumption|constructor].
  - simpl. destruct (Qle_bool rem 0); [split; [assumption|constructor]|].
    destruct (Qeq_bool _ 0); [now apply IH|].
    simpl.
    destruct (tierLoop_invariant
                (List.length (partsAtPriorityOf priority fp) * 2)
                priority rem fp HI) as [H1 H2].
    destruct (IH (spaceLeft (tierLoop
                (List.length (partsAtPriorityOf priority fp) * 2)
                priority rem fp)) _ H1) as [H3 H4].
    split; [assumption|]. constructor; assumption.
Qed.

End Invariant.

(** ** Sums *)

Lemma fold_left_Qplus {A : Type} (f : A -> Q) (l : list A) :
  forall a, fold_left (fun sum x => sum + f x) l a == a + sumQ (map f l).
Proof.
  induction l as [|x l IH]; intros a; simpl; [lra|].
  rewrite IH. lra.
Qed.

Lemma totalMinOf_sum (flatParts : list FlatPart.t) :
  totalMinOf flatParts == sumQ (map FlatPart.min flatParts).
Proof. unfold totalMinOf. rewrite fold_left_Qplus. lra. Qed.

(** ** Flattening *)

Lemma flattenArray_map {B : Type} (f : FlatPart.t -> B) (g : IFlexBoxPart.t -> B)
  (key : string) (part : list IFlexBoxPart.t) :
  (forall i p, f (flatPartOf key i p) = g p) ->
  forall i, map f (flattenArray key i part) = map g part.
Proof.
  intros H. induction part as [|p rest IH]; intros i; simpl; [reflexivity|].
  now rewrite H, IH.
Qed.

Lemma flatten_map {B : Type} (f : FlatPart.t -> B) (g : IFlexBoxPart.t -> B)
  (parts : Parts) :
  (forall key i p, f (flatPartOf key i p) = g p) ->
  map f (flatten parts) = map g (regionsOf parts).
Proof.
  intros H. induction parts as [|[key [p|ps]] rest IH]; simpl; [reflexivity| |].
  - now rewrite H, IH.
  - rewrite !map_app, IH. f_equal. apply flattenArray_map. intros. apply H.
Qed.

Lemma flatten_min (parts : Parts) :
  map FlatPart.min (flatten parts) = map minOf (regionsOf parts).
Proof. apply flatten_map. reflexivity. Qed.

Lemma totalMinOf_flatten (parts : Parts) :
  totalMinOf (flatten parts) == sigmaMin parts.
Proof. rewrite totalMinOf_sum, flatten_min. reflexivity. Qed.

Lemma flattenArray_withoutWidth (key : string) (part : list IFlexBoxPart.t) :
  forall i, flattenArray key i (map withoutWidth part) = flattenArray key i part.
Proof.
  induction part as [|p rest IH]; intros i; simpl; [reflexivity|].
  now rewrite IH.
Qed.

Lemma flatten_withoutWidths (parts : Parts) :
  flatten (withoutWidths parts) = flatten parts.
Proof.
  induction parts as [|[key [p|ps]] rest IH]; simpl; [reflexivity| |].
  - now rewrite IH.
  - now rewrite IH, flattenArray_withoutWidth.
Qed.

Lemma buildResult_withoutWidths (flatParts : list FlatPart.t) (parts : Parts) :
  buildResult flatParts (withoutWidths parts) = buildResult flatParts parts.
Proof.
  induction parts as [|[key [p|ps]] rest IH]; simpl; [reflexivity| |];
    now rewrite IH.
Qed.

Lemma distributeFlexBoxLayout_withoutWidths (totalSize : Q) (parts : Parts) :
  distributeFlexBoxLayout totalSize (withoutWidths parts)
  = distributeFlexBoxLayout totalSize parts.
Proof.
  unfold distributeFlexBoxLayout, distribute.
  rewrite flatten_withoutWidths.
  destruct (Qltb _ _); [reflexivity|].
  destruct (numLtQ _ _); [reflexivity|].
  now rewrite buildResult_withoutWidths.
Qed.

(** ** Shapes over a call *)

Lemma allocateMin_shapes (flatParts : list FlatPart.t) :
  map shapeOf (allocateMin flatParts) = map shapeOf flatParts.
Proof.
  unfold allocateMin. rewrite map_map. apply map_ext. intros p. reflexivity.
Qed.

Lemma distribute_shapes (totalSize : Q) (parts : Parts) (d : Distribution) :
  distribute totalSize parts = Some d ->
  map shapeOf (flatPartsOf d) = map shapeOf (flatten parts).
Proof.
  unfold distribute. destruct (Qltb _ _); [discriminate|].
  destruct (numLtQ _ _); [discriminate|].
  intros H. injection H as <-.
  rewrite priorityLoop_shapes. apply allocateMin_shapes.
Qed.

(** ** Properties settled by the shape of the code *)

(** C8. The call of lines 7-11 returns [spaceBefore = 100], [content = 600]
    (its two members at 100 and 500) and [spaceAfter = 300], which sum to
    1000; the all-defaults call on [a] and [b] with total 100 returns
    [a = 50] and [b = 50]. *)
Theorem C8_scenarios :
  returns layout
    [ ("spaceBefore"%string, 100); ("content"%string, 600);
      ("spaceAfter"%string, 300) ] /\
  match layout with
  | Sizes result => sumValues result == 1000
  | _ => False
  end /\
  match distribute 1000 layoutParts with
  | Some d =>
      Forall2 Qeq (map FlatPart.allocatedSize (flatPartsOf d)) [100; 100; 500; 300]
  | None => False
  end /\
  returns (distributeFlexBoxLayout 100 defaultsParts)
    [ ("a"%string, 50); ("b"%string, 50) ].
Proof.
  vm_compute. repeat split; try discriminate; repeat constructor; reflexivity.
Qed.

(** C10. Two inputs that differ only in the [width] fields of their parts
    get the same outcome, [null] included. *)
Theorem C10_width_is_ignored (totalSize : Q) (parts parts' : Parts) :
  withoutWidths parts = withoutWidths parts' ->
  distributeFlexBoxLayout totalSize parts
  = distributeFlexBoxLayout totalSize parts'.
Proof.
  intros H.
  rewrite <- (distributeFlexBoxLayout_withoutWidths totalSize parts).
  rewrite <- (distributeFlexBoxLayout_withoutWidths totalSize parts').
  now rewrite H.
Qed.

(** Two layouts that differ in their widths only. *)
Lemma C10_width_is_ignored_witness :
  distributeFlexBoxLayout 100
    [ ("a"%string, Single (IFlexBoxPart.mk (Some 5) None None None None));
      ("b"%string, Array [IFlexBoxPart.mk (Some 7) (Some 10) None None None]) ]
  = distributeFlexBoxLayout 100
    [ ("a"%string, Single (IFlexBoxPart.mk None None None None None));
      ("b"%string, Array [IFlexBoxPart.mk (Some 900) (Some 10) None None None]) ].
Proof.
  apply C10_width_is_ignored. reflexivity.
Defined.

Lemma prioritiesOf_allocateMin (flatParts : list FlatPart.t) :
  prioritiesOf (allocateMin flatParts) = prioritiesOf flatParts.
Proof.
  unfold prioritiesOf, allocateMin. rewrite map_map. reflexivity.
Qed.

(** ** From the loops to the call *)

Lemma distribute_Some (totalSize : Q) (parts : Parts) (d : Distribution) :
  distribute totalSize parts = Some d ->
  sigmaMin parts <= totalSize /\
  d = priorityLoop (prioritiesOf (flatten parts))
        (totalSize - totalMinOf (flatten parts)) (allocateMin (flatten parts)).
Proof.
  unfold distribute. pose proof (totalMinOf_flatten parts) as Hmin.
  destruct (Qltb _ _) eqn:E; [discriminate|].
  destruct (numLtQ _ _); [discriminate|].
  qprop. rewrite prioritiesOf_allocateMin.
  intros H. injection H as <-. split; [lra|reflexivity].
Qed.

Lemma distribute_invariant (Inv : list FlatPart.t -> Prop)
  (totalSize : Q) (parts : Parts) (d : Distribution) :
  (forall priority space flatParts,
     Inv flatParts ->
     epsilon < space ->
     ~ activeShareLoop (partsAtPriorityOf priority flatParts) 0 == 0 ->
     Inv (map (growPart priority space
                 (activeShareLoop (partsAtPriorityOf priority flatParts) 0))
            flatParts)) ->
  Inv (allocateMin (flatten parts)) ->
  distribute totalSize parts = Some d ->
  Inv (flatPartsOf d) /\
  Forall (fun t => Forall (fun round => roundOk (fst t) round
                             /\ Inv (roundBefore round)
                             /\ Inv (roundAfter round)) (rounds (snd t)))
    (tiersOf d).
Proof.
  intros Hround H0 Hd. apply distribute_Some in Hd as [_ ->].
  now apply priorityLoop_invariant.
Qed.

(** ** Zero shares *)




Lemma growPart_field_min (priority space activeShare : Q) (p : FlatPart.t) :
  FlatPart.min (growPart priority space activeShare p) = FlatPart.min p.
Proof. apply (shape_fields _ _ (growPart_shape priority space activeShare p)). Qed.

Lemma growPart_field_max (priority space activeShare : Q) (p : FlatPart.t) :
  FlatPart.max (growPart priority space activeShare p) = FlatPart.max p.
Proof. apply (shape_fields _ _ (growPart_shape priority space activeShare p)). Qed.


Lemma Forall_map_same {A : Type} (P : A -> Prop) (f : A -> A) (l : list A) :
  (forall x, P x -> P (f x)) -> Forall P l -> Forall P (map f l).
Proof.
  intros H Hl. apply Forall_map. eapply Forall_impl; [|exact Hl]. exact H.
Qed.



(** ** A budget within the tolerance *)

Lemma tierLoop_small (fuel : nat) (priority space : Q) (flatParts : list FlatPart.t) :
  space <= epsilon ->
  spaceLeft (tierLoop fuel priority space flatParts) = space /\
  partsLeft (tierLoop fuel priority space flatParts) = flatParts /\
  rounds (tierLoop fuel priority space flatParts) = [].
Proof.
  intros Hs. destruct fuel as [|fuel]; [auto|].
  rewrite tierLoop_step.
  assert (Qltb epsilon space = false) as -> by now apply Qltb_false.
  auto.
Qed.

Lemma priorityLoop_small (priorities : list Q) (remainingSize : Q)
  (flatParts : list FlatPart.t) :
  remainingSize <= epsilon ->
  let d := priorityLoop priorities remainingSize flatParts in
  flatPartsOf d = flatParts /\
  Forall (fun t => rounds (snd t) = []) (tiersOf d).
Proof.
  intros Hs. induction priorities as [|priority rest IH]; cbv zeta.
  - split; [reflexivity|constructor].
  - simpl. destruct (Qle_bool remainingSize 0); [split; [reflexivity|constructor]|].
    destruct (Qeq_bool _ 0); [exact IH|].
    destruct (tierLoop_small (List.length (partsAtPriorityOf priority flatParts) * 2)
                priority remainingSize flatParts Hs) as (E1 & E2 & E3).
    cbn [flatPartsOf tiersOf]. rewrite E1, E2.
    destruct IH as [H1 H2]. split; [assumption|].
    constructor; [exact E3|assumption].
Qed.

(** ** Parts a round leaves alone *)

Lemma growPart_inactive (priority space activeShare : Q) (p : FlatPart.t) :
  atPriority priority p && belowMax p = false ->
  growPart priority space activeShare p = p.
Proof. unfold growPart. now intros ->. Qed.

(** ** The list of priorities *)








(** ** Tiers in order *)


(** * Further properties of the code *)

(** ** The result object *)





(** ** What the loops write *)

Lemma shapes_round_states (flat0 : list FlatPart.t) (r : Round)
  (state : list FlatPart.t) :
  map shapeOf (roundBefore r) = map shapeOf flat0 ->
  In state (roundStates r) ->
  map shapeOf state = map shapeOf flat0.
Proof.
  intros H Hin. unfold roundStates in Hin.
  apply in_map_iff in Hin as [k [<- _]].
  rewrite growLoop_fst, map_app, growPart_shapes, <- map_app, firstn_skipn.
  assumption.
Qed.

Lemma states_shapes (totalSize : Q) (parts : Parts) (state : list FlatPart.t) :
  In state (statesOf totalSize parts) ->
  map shapeOf state = map shapeOf (flatten parts).
Proof.
  unfold statesOf. intros Hin.
  destruct (distribute totalSize parts) as [d|] eqn:Hd; [|contradiction].
  destruct (distribute_invariant
              (fun fp => map shapeOf fp = map shapeOf (flatten parts))
              totalSize parts d) as [Hfinal Hrounds].
  - intros priority space fp H _ _. now rewrite growPart_shapes.
  - apply allocateMin_shapes.
  - assumption.
  - destruct Hin as [<-|Hin]; [apply allocateMin_shapes|].
    apply in_app_or in Hin as [Hin|[<-|[]]]; [|assumption].
    apply in_flat_map in Hin as [t [Ht Hin]].
    apply in_flat_map in Hin as [r [Hr Hin]].
    rewrite Forall_forall in Hrounds. specialize (Hrounds t Ht).
    rewrite Forall_forall in Hrounds.
    destruct (Hrounds r Hr) as [_ [Hshape _]].
    now apply (shapes_round_states _ r).
Qed.

(** X2. Whatever the input, every state of the working list - after minimum
    allocation, between any two writes of a round, at the return - has one
    part per flat region, in order, with the [key], [index], [min], [max],
    [priority] and [share] of that region: the loops write [allocatedSize]
    and nothing else. *)
Theorem X2_only_allocatedSize_is_written (totalSize : Q) (parts : Parts)
  (state : list FlatPart.t) :
  In state (statesOf totalSize parts) ->
  List.length state = List.length (flatten parts) /\
  forall i region,
    nth_error (flatten parts) i = Some region ->
    exists p,
      nth_error state i = Some p /\
      FlatPart.key p = FlatPart.key region /\
      FlatPart.index p = FlatPart.index region /\
      FlatPart.min p = FlatPart.min region /\
      FlatPart.max p = FlatPart.max region /\
      FlatPart.priority p = FlatPart.priority region /\
      FlatPart.share p = FlatPart.share region.
Proof.
  intros Hin. apply states_shapes in Hin.
  split; [now apply shapes_length|].
  intros i region Hi.
  destruct (shapes_nth _ _ i region (eq_sym Hin) Hi) as [p [Hp E]].
  exists p. split; [assumption|]. now apply shape_fields.
Qed.

(** Every state of the call of lines 7-11 has its four flat parts. *)
Lemma X2_only_allocatedSize_is_written_witness :
  Forall (fun state => List.length state = 4%nat) (statesOf 1000 layoutParts).
Proof.
  apply Forall_forall. intros state Hin.
  apply (X2_only_allocatedSize_is_written 1000 layoutParts state Hin).
Defined.

Lemma growPart_pinned (priority space activeShare : Q) (p : FlatPart.t) :
  pinned p -> pinned (growPart priority space activeShare p).
Proof.
  unfold pinned, noRoom.
  rewrite growPart_field_max, growPart_field_min.
  intros H Hno. specialize (H Hno).
  rewrite growPart_inactive; [assumption|].
  apply andb_false_iff. right. unfold belowMax. apply qLtNum_false.
  rewrite H. destruct (FlatPart.max p); [lra|contradiction].
Qed.

(** X7. A region whose maximum does not exceed its minimum ([min == max]
    included) is treated as saturated from the start: whatever the budget,
    the shares and the other regions, it is returned at exactly its
    minimum. *)
Theorem X7_no_room_stays_at_min (totalSize : Q) (parts : Parts)
  (d : Distribution) (i : nat) (region : FlatPart.t) :
  distribute totalSize parts = Some d ->
  nth_error (flatten parts) i = Some region ->
  noRoom region ->
  exists p,
    nth_error (flatPartsOf d) i = Some p /\
    FlatPart.allocatedSize p = FlatPart.min region.
Proof.
  intros Hd Hi Hno.
  destruct (shapes_nth (flatten parts) (flatPartsOf d) i region
              (eq_sym (distribute_shapes _ _ _ Hd)) Hi) as [p [Hp E]].
  exists p. split; [assumption|].
  destruct (distribute_invariant (Forall pinned) totalSize parts d) as [H _].
  - intros priority space fp Hfp _ _.
    apply Forall_map_same; [apply growPart_pinned|assumption].
  - unfold allocateMin. apply Forall_map. apply Forall_forall.
    intros q _ _. reflexivity.
  - assumption.
  - rewrite Forall_forall in H. apply nth_error_In in Hp.
    apply shape_fields in E as (_ & _ & Emin & Emax & _).
    rewrite <- Emin. apply (H p Hp). unfold noRoom. now rewrite Emin, Emax.
Qed.

(** A fixed column of 40 in a total of 100 is returned at 40. *)
Lemma X7_no_room_stays_at_min_witness :
  exists d p,
    distribute 100 fixedColumnParts = Some d /\
    nth_error (flatPartsOf d) 0 = Some p /\
    FlatPart.allocatedSize p = 40.
Proof.
  destruct (distribute 100 fixedColumnParts) as [d|] eqn:Hd;
    [|vm_compute in Hd; discriminate].
  edestruct (X7_no_room_stays_at_min 100 fixedColumnParts d 0%nat)
    as [p [Hp Ha]].
  - exact Hd.
  - vm_compute. reflexivity.
  - vm_compute. discriminate.
  - exists d, p. split; [reflexivity|]. split; [exact Hp|exact Ha].
Defined.

(** ** Rounds *)




(** ** Tiers *)





(** ** Flattening *)

Lemma flattenArray_tags (key : string) (part : list IFlexBoxPart.t) :
  forall i,
    map (fun p => (FlatPart.key p, FlatPart.index p)) (flattenArray key i part)
    = map (fun k => (key, Some k)) (seq i (List.length part)).
Proof.
  induction part as [|x rest IH]; intros i; simpl; [reflexivity|].
  now rewrite IH.
Qed.

(** X13. Flattening keeps every region, in the enumeration order of the
    groups and the order of each array: a single part gives one flat part
    without index, an array of [n] parts gives [n] flat parts indexed
    [0 .. n-1] (none when empty), each under the key of its group, with the
    defaults [min = 0], [max = Infinity], [priority = 0], [share = 1] for the
    missing fields, and [allocatedSize = 0]. *)
Theorem X13_flatten_keeps_regions (parts : Parts) :
  map (fun p => (FlatPart.key p, FlatPart.index p)) (flatten parts)
  = tagsOf parts /\
  map specOf (flatten parts) = map defaultsOf (regionsOf parts) /\
  Forall (fun p => FlatPart.allocatedSize p = 0) (flatten parts) /\
  List.length (flatten parts) = List.length (regionsOf parts).
Proof.
  assert (Hspec : map specOf (flatten parts) = map defaultsOf (regionsOf parts))
    by (apply flatten_map; reflexivity).
  split; [|split; [exact Hspec|split]].
  - clear Hspec. unfold tagsOf.
    induction parts as [|[key [x|xs]] rest IH]; simpl; [reflexivity| |].
    + now rewrite IH.
    + rewrite map_app, flattenArray_tags. f_equal. apply IH.
  - clear Hspec.
    induction parts as [|[key [x|xs]] rest IH]; simpl; [constructor| |].
    + constructor; [reflexivity|assumption].
    + apply Forall_app. split; [|assumption].
      generalize 0%nat. induction xs as [|x xs IHx]; intros i; simpl;
        constructor; [reflexivity|apply IHx].
  - rewrite <- (length_map specOf), Hspec. apply length_map.
Qed.

(** ** Edge inputs *)


(** ** A budget used up *)

Lemma priorityLoop_small_remaining (priorities : list Q) (remainingSize : Q)
  (flatParts : list FlatPart.t) :
  remainingSize <= epsilon ->
  remainingSizeOf (priorityLoop priorities remainingSize flatParts)
  = remainingSize.
Proof.
  intros Hs. induction priorities as [|priority rest IH]; [reflexivity|].
  simpl. destruct (Qle_bool remainingSize 0); [reflexivity|].
  destruct (Qeq_bool _ 0); [exact IH|].
  destruct (tierLoop_small (List.length (partsAtPriorityOf priority flatParts) * 2)
              priority remainingSize flatParts Hs) as (E1 & E2 & _).
  cbn [remainingSizeOf]. rewrite E1, E2. exact IH.
Qed.

Lemma priorityLoop_used_up (priorities : list Q) :
  forall remainingSize flatParts,
    let d := priorityLoop priorities remainingSize flatParts in
    Forall (fun t =>
              spaceLeft (snd t) <= epsilon ->
              flatPartsOf d = partsLeft (snd t) /\
              remainingSizeOf d = spaceLeft (snd t))
      (tiersOf d).
Proof.
  induction priorities as [|priority rest IH]; intros rem fp; cbv zeta;
    [constructor|].
  simpl. destruct (Qle_bool rem 0); [constructor|].
  destruct (Qeq_bool _ 0); [apply IH|].
  cbn [tiersOf flatPartsOf remainingSizeOf].
  set (r := tierLoop (List.length (partsAtPriorityOf priority fp) * 2)
              priority rem fp).
  constructor; [|apply IH].
  intros Hs. simpl in Hs |- *. split.
  - apply priorityLoop_small. exact Hs.
  - apply priorityLoop_small_remaining. exact Hs.
Qed.

(** X14. Once the loop of a tier leaves at most 0.001 to distribute, no
    later tier changes anything: the working list and the budget at the
    return are the ones that tier left. *)
Theorem X14_nothing_after_budget_is_used (totalSize : Q) (parts : Parts)
  (d : Distribution) (t : Q * TierRun) :
  distribute totalSize parts = Some d ->
  In t (tiersOf d) ->
  spaceLeft (snd t) <= epsilon ->
  flatPartsOf d = partsLeft (snd t) /\
  remainingSizeOf d = spaceLeft (snd t).
Proof.
  intros Hd Ht Hs. apply distribute_Some in Hd as [_ Ed]. subst d.
  pose proof (priorityLoop_used_up (prioritiesOf (flatten parts))
                (totalSize - totalMinOf (flatten parts))
                (allocateMin (flatten parts))) as H.
  cbv zeta in H. rewrite Forall_forall in H. exact (H t Ht Hs).
Qed.

(** With a total of 250, tier 2 of the layout of lines 7-11 uses up the
    budget and the lower tiers stay at their minima. *)
Lemma X14_nothing_after_budget_is_used_witness :
  returns (distributeFlexBoxLayout 250 layoutParts)
    [ ("spaceBefore"%string, 50); ("content"%string, 200);
      ("spaceAfter"%string, 0) ] /\
  exists d t,
    distribute 250 layoutParts = Some d /\
    nth_error (tiersOf d) 0 = Some t /\
    flatPartsOf d = partsLeft (snd t).
Proof.
  split; [vm_compute; repeat split; reflexivity|].
  destruct (distribute 250 layoutParts) as [d|] eqn:Hd;
    [|vm_compute in Hd; discriminate].
  assert (Hd' := Hd). vm_compute in Hd'. injection Hd' as Ed. subst d.
  eexists. eexists. split; [reflexivity|]. split; [reflexivity|].
  apply (X14_nothing_after_budget_is_used 250 layoutParts _ _ Hd).
  - left. reflexivity.
  - vm_compute. discriminate.
Defined.

(** * The function on binary64 numbers: properties *)

(** ** Sums that have met [+Infinity] *)

Lemma unboundedSum_add_l (s x : float) :
  Double.unboundedSum s -> Double.unboundedSum (s + x)%float.
Proof.
  unfold Double.unboundedSum. rewrite FloatAxioms.add_spec.
  unfold FloatAxioms.SF64add, SpecFloat.SFadd.
  intros [-> | ->]; destruct (FloatOps.Prim2SF x) as [?|[|]| |? ? ?]; auto.
Qed.

Lemma unboundedSum_add_r (s : float) :
  Double.unboundedSum (s + infinity)%float.
Proof.
  unfold Double.unboundedSum. rewrite FloatAxioms.add_spec.
  change (FloatOps.Prim2SF infinity) with (SpecFloat.S754_infinity false).
  unfold FloatAxioms.SF64add, SpecFloat.SFadd.
  destruct (FloatOps.Prim2SF s) as [?|[|]| |? ? ?]; auto.
Qed.

Lemma unboundedSum_lt (x totalSize : float) :
  Double.unboundedSum x -> Double.lt x totalSize = false.
Proof.
  unfold Double.unboundedSum, Double.lt. rewrite FloatAxioms.ltb_spec.
  unfold SpecFloat.SFltb, SpecFloat.SFcompare.
  intros [-> | ->]; destruct (FloatOps.Prim2SF totalSize) as [?|[|]| |? ? ?];
    reflexivity.
Qed.

Lemma fold_left_add_unbounded (l : list float) :
  forall s, Double.unboundedSum s -> Double.unboundedSum (fold_left add l s).
Proof.
  induction l as [|x l IH]; intros s Hs; simpl; [assumption|].
  apply IH. now apply unboundedSum_add_l.
Qed.

Lemma reduceSum_unbounded (l : list float) :
  In infinity l -> Double.unboundedSum (Double.reduceSum l).
Proof.
  unfold Double.reduceSum. generalize 0%float.
  induction l as [|x l IH]; intros s; simpl; [tauto|].
  intros [-> | Hin].
  - apply fold_left_add_unbounded, unboundedSum_add_r.
  - now apply IH.
Qed.

Lemma fold_left_reduce {A : Type} (f : A -> float) (l : list A) :
  forall s, fold_left (fun sum x => (sum + f x)%float) l s
            = fold_left add (map f l) s.
Proof.
  induction l as [|x l IH]; intros s; simpl; [reflexivity|apply IH].
Qed.

(** ** The round as a simultaneous update *)

Lemma double_growLoop_fst (priority space activeShare : float)
  (flatParts : list Double.FlatPart.t) :
  forall distributed,
    fst (Double.growLoop priority space activeShare flatParts distributed)
    = map (Double.growPart priority space activeShare) flatParts.
Proof.
  induction flatParts as [|p rest IH]; intros d; simpl; [reflexivity|].
  unfold Double.growPart at 1.
  destruct (Double.atPriority priority p && negb (Double.atMax p)).
  - specialize (IH (d + Double.actualIncreaseOf space activeShare p)%float).
    destruct (Double.growLoop priority space activeShare rest _) as [rest' d'].
    simpl in *. now rewrite IH.
  - specialize (IH d).
    destruct (Double.growLoop priority space activeShare rest d) as [rest' d'].
    simpl in *. now rewrite IH.
Qed.

(** The [while] loop, one iteration unfolded. *)
Lemma double_tierLoop_step (fuel : nat) (priority space : float)
  (flatParts : list Double.FlatPart.t) :
  Double.tierLoop (S fuel) priority space flatParts =
  if Double.gt space Double.epsilon then
    let activeShare :=
      Double.activeShareLoop (Double.partsAtPriorityOf priority flatParts) 0 in
    if Double.strictEq activeShare 0 then Double.mkTierRun space flatParts 1 []
    else
      let flatParts' := map (Double.growPart priority space activeShare) flatParts in
      let distributed :=
        snd (Double.growLoop priority space activeShare flatParts 0) in
      let round :=
        Double.mkRound priority space activeShare flatParts flatParts' distributed in
      if Double.lt distributed Double.epsilon then
        Double.mkTierRun (space - distributed) flatParts' 1 [round]
      else
        let r := Double.tierLoop fuel priority (space - distributed) flatParts' in
        Double.mkTierRun (Double.spaceLeft r) (Double.partsLeft r)
          (S (Double.iterationCount r)) (round :: Double.rounds r)
  else Double.mkTierRun space flatParts 0 [].
Proof.
  simpl. destruct (Double.gt space Double.epsilon); [|reflexivity].
  destruct (Double.strictEq _ 0); [reflexivity|].
  rewrite <- double_growLoop_fst with (distributed := 0%float).
  destruct (Double.growLoop _ _ _ _ _) as [fp' d]. reflexivity.
Qed.

(** ** What the loops leave untouched *)

Lemma double_growPart_shape (priority space activeShare : float)
  (p : Double.FlatPart.t) :
  Double.shapeOf (Double.growPart priority space activeShare p) = Double.shapeOf p.
Proof.
  unfold Double.growPart.
  destruct (Double.atPriority priority p && negb (Double.atMax p)); reflexivity.
Qed.

Lemma double_growPart_shapes (priority space activeShare : float)
  (flatParts : list Double.FlatPart.t) :
  map Double.shapeOf (map (Double.growPart priority space activeShare) flatParts)
  = map Double.shapeOf flatParts.
Proof.
  rewrite map_map. apply map_ext. intros p. apply double_growPart_shape.
Qed.

Lemma double_shape_fields (p q : Double.FlatPart.t) :
  Double.shapeOf p = Double.shapeOf q ->
  Double.FlatPart.key p = Double.FlatPart.key q /\
  Double.FlatPart.index p = Double.FlatPart.index q /\
  Double.specOf p = Double.specOf q.
Proof.
  destruct p, q. cbn. intros H. injection H. intros. subst. tauto.
Qed.

Lemma map_eq_nth {A B : Type} (f : A -> B) (l l' : list A) (i : nat) (p : A) :
  map f l = map f l' ->
  nth_error l i = Some p ->
  exists p', nth_error l' i = Some p' /\ f p' = f p.
Proof.
  revert l' i. induction l as [|a l IH]; intros [|a' l'] [|i] H Hp;
    try discriminate.
  - apply cons_eq_inv in H as [Ha _]. injection Hp as <-. exists a'. auto.
  - apply cons_eq_inv in H as [_ Hl]. exact (IH l' i Hl Hp).
Qed.

Lemma map_eq_In {A B : Type} (f : A -> B) (l l' : list A) (p : A) :
  map f l = map f l' -> In p l -> exists p', In p' l' /\ f p' = f p.
Proof.
  intros H Hin. apply In_nth_error in Hin as [i Hi].
  destruct (map_eq_nth f l l' i p H Hi) as [p' [Hp' E]].
  exists p'. split; [now apply nth_error_In in Hp'|assumption].
Qed.


(** ** Invariants of the working list *)

Section DoubleInvariant.

Variable Inv : list Double.FlatPart.t -> Prop.

Hypothesis Inv_round : forall priority space activeShare flatParts,
  Inv flatParts ->
  Inv (map (Double.growPart priority space activeShare) flatParts).

Lemma double_tierLoop_invariant (fuel : nat) (priority : float) :
  forall space flatParts,
    Inv flatParts ->
    let r := Double.tierLoop fuel priority space flatParts in
    Inv (Double.partsLeft r) /\
    Forall (Double.roundFacts Inv priority) (Double.rounds r).
Proof.
  induction fuel as [|fuel IH]; intros space fp HI; cbv zeta.
  - simpl. split; [assumption|constructor].
  - rewrite double_tierLoop_step.
    destruct (Double.gt space Double.epsilon) eqn:Hs;
      [|split; [assumption|constructor]].
    cbv zeta.
    destruct (Double.strictEq _ 0) eqn:Ha; [split; [assumption|constructor]|].
    pose proof (Inv_round priority space
                  (Double.activeShareLoop (Double.partsAtPriorityOf priority fp) 0)
                  fp HI) as HI'.
    destruct (Double.lt _ Double.epsilon) eqn:Hd; simpl.
    + split; [assumption|]. constructor; [|constructor].
      unfold Double.roundFacts. simpl. auto 7.
    + destruct (IH (space - snd (Double.growLoop priority space
                 (Double.activeShareLoop (Double.partsAtPriorityOf priority fp) 0)
                 fp 0))%float _ HI') as [H1 H2].
      split; [assumption|]. constructor; [|assumption].
      unfold Double.roundFacts. simpl. auto 7.
Qed.

Lemma double_priorityLoop_invariant (priorities : list float) :
  forall remainingSize flatParts,
    Inv flatParts ->
    let d := Double.priorityLoop priorities remainingSize flatParts in
    Inv (Double.flatPartsOf d) /\
    Forall (fun t =>
              Inv (Double.tierParts t) /\
              Forall (Double.roundFacts Inv (Double.tierPriority t))
                (Double.rounds (Double.tierRun t)))
      (Double.tiersOf d).
Proof.
  induction priorities as [|priority rest IH]; intros rem fp HI; cbv zeta.
  - simpl. split; [assumption|constructor].
  - simpl. destruct (Double.le rem 0); [split; [assumption|constructor]|].
    destruct (Double.strictEq _ 0); [now apply IH|].
    simpl.
    destruct (double_tierLoop_invariant
                (Double.maxIterationsOf priority fp) priority rem fp HI)
      as [H1 H2].
    destruct (IH (Double.spaceLeft (Double.tierLoop
                (Double.maxIterationsOf priority fp) priority rem fp)) _ H1)
      as [H3 H4].
    split; [assumption|]. constructor; [|assumption]. simpl. auto.
Qed.

End DoubleInvariant.

(** ** From the loops to the call *)

Lemma double_prioritiesOf_allocateMin (flatParts : list Double.FlatPart.t) :
  Double.prioritiesOf (Double.allocateMin flatParts)
  = Double.prioritiesOf flatParts.
Proof.
  unfold Double.prioritiesOf, Double.allocateMin. rewrite map_map. reflexivity.
Qed.

Lemma double_allocateMin_shapes (flatParts : list Double.FlatPart.t) :
  map Double.shapeOf (Double.allocateMin flatParts)
  = map Double.shapeOf flatParts.
Proof.
  unfold Double.allocateMin. rewrite map_map. apply map_ext. reflexivity.
Qed.

Lemma double_distribute_Some (totalSize : float) (parts : Double.Parts)
  (d : Double.Distribution) :
  Double.distribute totalSize parts = Some d ->
  d = Double.priorityLoop (Double.prioritiesOf (Double.flatten parts))
        (totalSize - Double.totalMinOf (Double.flatten parts))
        (Double.allocateMin (Double.flatten parts)).
Proof.
  unfold Double.distribute.
  destruct (Double.gt _ _); [discriminate|].
  destruct (Double.lt _ _); [discriminate|].
  rewrite double_prioritiesOf_allocateMin. intros H. now injection H as <-.
Qed.

Lemma double_distribute_invariant (Inv : list Double.FlatPart.t -> Prop)
  (totalSize : float) (parts : Double.Parts) (d : Double.Distribution) :
  (forall priority space activeShare flatParts,
     Inv flatParts ->
     Inv (map (Double.growPart priority space activeShare) flatParts)) ->
  Inv (Double.allocateMin (Double.flatten parts)) ->
  Double.distribute totalSize parts = Some d ->
  Inv (Double.flatPartsOf d) /\
  Forall (fun t =>
            Inv (Double.tierParts t) /\
            Forall (Double.roundFacts Inv (Double.tierPriority t))
              (Double.rounds (Double.tierRun t)))
    (Double.tiersOf d).
Proof.
  intros Hround H0 Hd. apply double_distribute_Some in Hd. subst d.
  now apply double_priorityLoop_invariant.
Qed.

(** Every state of the working list has the shapes of the flattened input. *)
Lemma double_distribute_shapes (totalSize : float) (parts : Double.Parts)
  (d : Double.Distribution) :
  Double.distribute totalSize parts = Some d ->
  map Double.shapeOf (Double.flatPartsOf d)
  = map Double.shapeOf (Double.flatten parts) /\
  Forall (fun t =>
            map Double.shapeOf (Double.tierParts t)
            = map Double.shapeOf (Double.flatten parts))
    (Double.tiersOf d).
Proof.
  intros Hd.
  destruct (double_distribute_invariant
              (fun l => map Double.shapeOf l
                        = map Double.shapeOf (Double.flatten parts))
              totalSize parts d) as [H1 H2]; try assumption.
  - intros priority space activeShare fp H.
    now rewrite double_growPart_shapes.
  - apply double_allocateMin_shapes.
  - split; [assumption|]. eapply Forall_impl; [|exact H2]. now intros t [H _].
Qed.

(** ** The result is always built *)

Lemma double_flatten_single (parts : Double.Parts) (key : string)
  (p : Double.IFlexBoxPart.t) :
  In (key, Double.Single p) parts ->
  In (Double.flatPartOf key None p) (Double.flatten parts).
Proof.
  induction parts as [|[k [q|qs]] rest IH]; simpl; [tauto| |].
  - intros [H|H]; [injection H as -> ->; now left|right; auto].
  - intros [H|H]; [discriminate|]. apply in_or_app. right. auto.
Qed.

Lemma double_buildResult_total (flatParts : list Double.FlatPart.t)
  (parts : Double.Parts) :
  (forall key p, In (key, Double.Single p) parts ->
     exists fp, In fp flatParts /\ Double.isSingleOf key fp = true) ->
  exists result,
    Double.buildResult flatParts parts = Some result /\
    map fst result = map fst parts.
Proof.
  induction parts as [|[key [p|ps]] rest IH]; intros H; simpl.
  - now exists [].
  - destruct IH as [r [Hr Hk]]; [intros k q Hq; apply (H k q); now right|].
    destruct (H key p) as [fp [Hin Hfp]]; [now left|].
    destruct (find (Double.isSingleOf key) flatParts) as [fp'|] eqn:E.
    + rewrite Hr. eexists. split; [reflexivity|]. simpl. now rewrite Hk.
    + pose proof (find_none _ _ E fp Hin). congruence.
  - destruct IH as [r [Hr Hk]]; [intros k q Hq; apply (H k q); now right|].
    rewrite Hr. eexists. split; [reflexivity|]. simpl. now rewrite Hk.
Qed.

(** No call ends in the [TypeError] of line 169. *)
Lemma double_outcome (totalSize : float) (parts : Double.Parts) :
  match Double.distribute totalSize parts with
  | None => Double.distributeFlexBoxLayout totalSize parts = Double.Null
  | Some d =>
      exists result,
        Double.buildResult (Double.flatPartsOf d) parts = Some result /\
        map fst result = map fst parts /\
        Double.distributeFlexBoxLayout totalSize parts = Double.Sizes result
  end.
Proof.
  unfold Double.distributeFlexBoxLayout.
  destruct (Double.distribute totalSize parts) as [d|] eqn:Hd; [|reflexivity].
  destruct (double_buildResult_total (Double.flatPartsOf d) parts)
    as [r [Hr Hk]].
  - intros key p Hin. apply double_flatten_single in Hin.
    destruct (double_distribute_shapes _ _ _ Hd) as [Hs _].
    destruct (map_eq_In Double.shapeOf (Double.flatten parts)
                (Double.flatPartsOf d) _ (eq_sym Hs) Hin) as [fp [Hfp E]].
    exists fp. split; [assumption|].
    apply double_shape_fields in E as (Ek & Ei & _).
    unfold Double.isSingleOf. rewrite Ek, Ei. simpl. now rewrite String.eqb_refl.
  - exists r. rewrite Hr. auto.
Qed.

(** ** The sums of the feasibility test *)

Lemma double_flattenArray_map {B : Type} (f : Double.FlatPart.t -> B)
  (g : Double.IFlexBoxPart.t -> B) (key : string)
  (part : list Double.IFlexBoxPart.t) :
  (forall k i p, f (Double.flatPartOf k i p) = g p) ->
  forall i, map f (Double.flattenArray key i part) = map g part.
Proof.
  intros H. induction part as [|p rest IH]; intros i; simpl; [reflexivity|].
  now rewrite H, IH.
Qed.

Lemma double_flatten_map {B : Type} (f : Double.FlatPart.t -> B)
  (g : Double.IFlexBoxPart.t -> B) (parts : Double.Parts) :
  (forall k i p, f (Double.flatPartOf k i p) = g p) ->
  map f (Double.flatten parts) = map g (Double.regionsOf parts).
Proof.
  intros H. unfold Double.regionsOf.
  induction parts as [|[key [p|ps]] rest IH]; simpl; [reflexivity| |].
  - now rewrite H, IH.
  - now rewrite map_app, map_app, IH, (double_flattenArray_map f g key ps H).
Qed.

Lemma double_totalMinOf_flatten (parts : Double.Parts) :
  Double.totalMinOf (Double.flatten parts) = Double.sigmaMin parts.
Proof.
  unfold Double.totalMinOf, Double.sigmaMin, Double.reduceSum.
  rewrite fold_left_reduce. f_equal.
  now apply double_flatten_map.
Qed.

Lemma double_totalMaxOf_flatten (parts : Double.Parts) :
  Double.totalMaxOf (Double.flatten parts) = Double.sigmaMax parts.
Proof.
  unfold Double.totalMaxOf, Double.sigmaMax, Double.reduceSum.
  rewrite fold_left_reduce. f_equal.
  now apply double_flatten_map.
Qed.

Lemma double_distribute_None (totalSize : float) (parts : Double.Parts) :
  Double.distribute totalSize parts = None <->
  Double.gt (Double.sigmaMin parts) totalSize = true \/
  Double.lt (Double.sigmaMax parts) totalSize = true.
Proof.
  unfold Double.distribute.
  rewrite double_totalMinOf_flatten, double_totalMaxOf_flatten.
  destruct (Double.gt _ _); [tauto|].
  destruct (Double.lt _ _); [tauto|].
  split; [discriminate|]. intros [H|H]; discriminate.
Qed.

(** C2, amended.  The call returns [null] exactly when the sum of the
    minima, accumulated in double precision as line 79 does, exceeds
    [totalSize], or the sum of the maxima, accumulated as line 85 does, is
    below [totalSize]; a region with an unbounded [max] keeps the second test
    from failing; every other call returns an object with the keys of
    [parts], so a failed call carries no allocation at all. *)
Theorem C2_null_iff_rounded_sums (totalSize : float) (parts : Double.Parts) :
  (Double.distributeFlexBoxLayout totalSize parts = Double.Null <->
   Double.gt (Double.sigmaMin parts) totalSize = true \/
   Double.lt (Double.sigmaMax parts) totalSize = true) /\
  ((exists p, In p (Double.regionsOf parts) /\ Double.maxOf p = infinity) ->
   Double.unboundedSum (Double.sigmaMax parts) /\
   Double.lt (Double.sigmaMax parts) totalSize = false) /\
  (Double.distributeFlexBoxLayout totalSize parts = Double.Null \/
   exists result,
     Double.distributeFlexBoxLayout totalSize parts = Double.Sizes result /\
     map fst result = map fst parts).
Proof.
  pose proof (double_outcome totalSize parts) as Ho.
  pose proof (double_distribute_None totalSize parts) as Hn.
  split; [|split].
  - destruct (Double.distribute totalSize parts) as [d|].
    + destruct Ho as [r (_ & _ & Hr)]. rewrite Hr.
      split; [discriminate|]. intros H. apply Hn in H. discriminate.
    + split; [intros _; now apply Hn|auto].
  - intros [p [Hin Hp]].
    assert (Hu : Double.unboundedSum (Double.sigmaMax parts)).
    { apply reduceSum_unbounded. rewrite <- Hp. now apply in_map. }
    split; [assumption|now apply unboundedSum_lt].
  - destruct (Double.distribute totalSize parts) as [d|]; [|now left].
    destruct Ho as [r (_ & Hk & Hr)]. right. eauto.
Qed.

(** C2 as stated fails: the sums the code compares are rounded.  The maxima
    0.1 and 0.3 sum to less than the double 0.4, yet line 85 computes 0.4 and
    the call returns sizes; the minima 2^53 and 1 sum to more than 2^53, yet
    line 79 computes 2^53 and the call returns sizes. *)
Lemma C2_counterexample :
  (Double.exactSum (map Double.maxOf (Double.regionsOf Double.roundedMaxParts))
   < Double.exactly 0.4)%Q /\
  Double.distributeFlexBoxLayout 0.4 Double.roundedMaxParts
  = Double.Sizes [("a"%string, 0.1%float); ("b"%string, 0.3%float)] /\
  (Double.exactly 9007199254740992
   < Double.exactSum (map Double.minOf (Double.regionsOf Double.roundedMinParts)))%Q /\
  Double.distributeFlexBoxLayout 9007199254740992 Double.roundedMinParts
  = Double.Sizes [("a"%string, 9007199254740992%float); ("b"%string, 1%float)].
Proof.
  split; [vm_compute; reflexivity|].
  split; [vm_compute; reflexivity|].
  split; [vm_compute; reflexivity|].
  vm_compute; reflexivity.
Qed.

(** ** The runs of the tiers *)

(** Every logged tier is the run of the [while] loop from the state the
    tier was entered in, with the cap of line 116. *)
Lemma double_priorityLoop_tiers (priorities : list float) :
  forall remainingSize flatParts,
    Forall (fun t =>
              Double.tierRun t
              = Double.tierLoop
                  (Double.maxIterationsOf (Double.tierPriority t)
                     (Double.tierParts t))
                  (Double.tierPriority t) (Double.tierSpace t)
                  (Double.tierParts t))
      (Double.tiersOf (Double.priorityLoop priorities remainingSize flatParts)).
Proof.
  induction priorities as [|priority rest IH]; intros rem fp; simpl;
    [constructor|].
  destruct (Double.le rem 0); [constructor|].
  destruct (Double.strictEq _ 0); [apply IH|].
  simpl. constructor; [reflexivity|apply IH].
Qed.



(** The checks of lines 118, 130 and 150, read off a run. *)
Lemma double_tierLoop_checks (fuel : nat) (priority : float) :
  forall space flatParts,
    let r := Double.tierLoop fuel priority space flatParts in
    Forall (fun round => Double.gt (Double.roundSpace round) Double.epsilon = true)
      (Double.rounds r) /\
    Forall (fun round =>
              Double.lt (Double.roundDistributed round) Double.epsilon = false)
      (removelast (Double.rounds r)) /\
    Double.chained space (Double.rounds r) (Double.spaceLeft r) /\
    (Double.gt (Double.spaceLeft r) Double.epsilon = false \/
     Double.iterationCount r = fuel \/
     Double.strictEq
       (Double.activeShareLoop
          (Double.partsAtPriorityOf priority (Double.partsLeft r)) 0) 0 = true \/
     exists earlier round,
       Double.rounds r = earlier ++ [round] /\
       Double.lt (Double.roundDistributed round) Double.epsilon = true).
Proof.
  induction fuel as [|fuel IH]; intros space fp; cbv zeta.
  - simpl. split; [constructor|]. split; [constructor|].
    split; [reflexivity|]. right. left. reflexivity.
  - rewrite double_tierLoop_step.
    destruct (Double.gt space Double.epsilon) eqn:Hs.
    2:{ simpl. split; [constructor|]. split; [constructor|].
        split; [reflexivity|]. left. exact Hs. }
    cbv zeta.
    destruct (Double.strictEq _ 0) eqn:Ha.
    { simpl. split; [constructor|]. split; [constructor|].
      split; [reflexivity|]. right. right. left. exact Ha. }
    destruct (Double.lt _ Double.epsilon) eqn:Hd.
    + cbn [Double.rounds Double.spaceLeft Double.partsLeft Double.iterationCount].
      split; [repeat constructor; assumption|].
      split; [constructor|].
      split; [simpl; auto|].
      right. right. right. exists []. eexists. split; [reflexivity|exact Hd].
    + match goal with |- context [Double.tierLoop fuel priority ?s ?l] =>
        destruct (IH s l) as (H1 & H2 & H3 & H4);
        set (r := Double.tierLoop fuel priority s l) in *
      end.
      cbv zeta.
      cbn [Double.rounds Double.spaceLeft Double.partsLeft Double.iterationCount].
      split; [constructor; [exact Hs|exact H1]|].
      split.
      { destruct (Double.rounds r) as [|r' rs]; [constructor|].
        change (removelast (?x :: r' :: rs)) with (x :: removelast (r' :: rs)).
        constructor; [exact Hd|exact H2]. }
      split; [simpl; auto|].
      destruct H4 as [H4|[H4|[H4|(earlier & round & E & H4)]]]; auto.
      right. right. right. rewrite E.
      eexists (_ :: earlier), round. split; [reflexivity|exact H4].
Qed.

(** A loop entered with no more than [epsilon] leaves the list as it is. *)
Lemma double_priorityLoop_small (priorities : list float) (remainingSize : float)
  (flatParts : list Double.FlatPart.t) :
  Double.gt remainingSize Double.epsilon = false ->
  Double.flatPartsOf (Double.priorityLoop priorities remainingSize flatParts)
  = flatParts.
Proof.
  intros Hs. induction priorities as [|priority rest IH]; [reflexivity|].
  simpl. destruct (Double.le remainingSize 0); [reflexivity|].
  destruct (Double.strictEq _ 0); [exact IH|].
  assert (E : Double.tierLoop (Double.maxIterationsOf priority flatParts)
                priority remainingSize flatParts
              = Double.mkTierRun remainingSize flatParts 0 []).
  { destruct (Double.maxIterationsOf priority flatParts); [reflexivity|].
    rewrite double_tierLoop_step, Hs. reflexivity. }
  cbn [Double.flatPartsOf]. rewrite E. exact IH.
Qed.

(** C5, amended.  Both checks compare with the literal 0.001, whatever
    [totalSize] is.  Line 118: every round was entered with more than 0.001
    to distribute, each with what the round before left.  Line 150: every
    round followed by another one distributed at least 0.001.  And nothing
    else stops a tier: its loop was left with no more than 0.001 to
    distribute, or at the iteration cap, or without active share, or after a
    round that distributed less than 0.001.  A call whose budget exceeds the
    minima by no more than 0.001 returns every region at its minimum.  The
    constant is 0.001 itself: a leftover of 0.001 is kept and the next
    number above it is handed out; a round of 0.001 is followed by another
    iteration and a round of the next number below it is not. *)
Theorem C5_fixed_tolerance :
  (forall totalSize parts d,
     Double.distribute totalSize parts = Some d ->
     Forall (fun t =>
               let r := Double.tierRun t in
               Forall (fun round =>
                         Double.gt (Double.roundSpace round) Double.epsilon
                         = true)
                 (Double.rounds r) /\
               Forall (fun round =>
                         Double.lt (Double.roundDistributed round) Double.epsilon
                         = false)
                 (removelast (Double.rounds r)) /\
               Double.chained (Double.tierSpace t) (Double.rounds r)
                 (Double.spaceLeft r) /\
               exists e, Double.exitHolds t e)
       (Double.tiersOf d) /\
     (Double.gt (totalSize - Double.sigmaMin parts) Double.epsilon = false ->
      Double.flatPartsOf d = Double.allocateMin (Double.flatten parts))) /\
  Double.distributeFlexBoxLayout 0.001 (Double.probeParts 0)
  = Double.Sizes [("a"%string, 0%float)] /\
  Double.distributeFlexBoxLayout 0.0010000000000000002 (Double.probeParts 0)
  = Double.Sizes [("a"%string, 0.0010000000000000002%float)] /\
  Double.distributedOf 1 (Double.cappedRoundParts 0.001) = [[0.001%float]] /\
  Double.iterationsOf 1 (Double.cappedRoundParts 0.001) = [2%nat] /\
  Double.distributedOf 1 (Double.cappedRoundParts 0.0009999999999999998)
  = [[0.0009999999999999998%float]] /\
  Double.iterationsOf 1 (Double.cappedRoundParts 0.0009999999999999998)
  = [1%nat].
Proof.
  split; [|repeat split; vm_compute; reflexivity].
  intros totalSize parts d Hd.
  apply double_distribute_Some in Hd. subst d. split.
  - eapply Forall_impl; [|apply double_priorityLoop_tiers].
    intros t Ht. cbv zeta.
    destruct (double_tierLoop_checks
                (Double.maxIterationsOf (Double.tierPriority t)
                   (Double.tierParts t))
                (Double.tierPriority t) (Double.tierSpace t)
                (Double.tierParts t)) as (H1 & H2 & H3 & H4).
    rewrite <- Ht in H1, H2, H3, H4.
    repeat (split; [assumption|]).
    destruct H4 as [H4|[H4|[H4|H4]]].
    + now exists Double.LoopCondition.
    + now exists Double.IterationCap.
    + now exists Double.NoActiveShare.
    + now exists Double.NegligibleRound.
  - intros Hs. rewrite <- double_totalMinOf_flatten in Hs.
    now apply double_priorityLoop_small.
Qed.

(** The call on [{ a: { max: 1, share: 3 }, b: {} }] with 100: two rounds,
    the first of which distributed 26. *)
Lemma C5_fixed_tolerance_witness :
  exists d,
    Double.distribute 100 Double.unevenParts = Some d /\
    Double.distributedOf 100 Double.unevenParts = [[26; 74]%float] /\
    Forall (fun t =>
              Forall (fun round =>
                        Double.lt (Double.roundDistributed round) Double.epsilon
                        = false)
                (removelast (Double.rounds (Double.tierRun t))) /\
              exists e, Double.exitHolds t e)
      (Double.tiersOf d).
Proof.
  destruct (Double.distribute 100 Double.unevenParts) as [d|] eqn:Hd;
    [|vm_compute in Hd; discriminate].
  exists d. split; [reflexivity|].
  destruct C5_fixed_tolerance as [H _].
  destruct (H 100%float Double.unevenParts d Hd) as [Ht _].
  split; [vm_compute; reflexivity|].
  eapply Forall_impl; [|exact Ht]. cbv zeta. intros t (_ & H2 & _ & H4). auto.
Defined.

(** C5 as stated fails: the tolerance does not follow [totalSize].  With a
    total of 2^-10 the whole budget is left over and the region is returned
    at 0; with a total of 1024 a leftover of 2^-9 is handed out.  No
    tolerance proportional to the magnitude of [totalSize] accounts for
    both. *)
Lemma C5_counterexample :
  Double.distributeFlexBoxLayout 0.0009765625 (Double.probeParts 0)
  = Double.Sizes [("a"%string, 0%float)] /\
  Double.distributeFlexBoxLayout 1024 (Double.probeParts 1023.998046875)
  = Double.Sizes [("a"%string, 1024%float)] /\
  forall c,
    ~ (Double.toleranceExplains c 0.0009765625 0 false /\
       Double.toleranceExplains c 1024 1023.998046875 true).
Proof.
  split; [vm_compute; reflexivity|].
  split; [vm_compute; reflexivity|].
  intros c [H1 H2]. unfold Double.toleranceExplains in *.
  assert (E1 : (Double.exactly 0.0009765625 == 1 # 1024)%Q)
    by (vm_compute; reflexivity).
  assert (E2 : (Double.exactly 0 == 0)%Q) by (vm_compute; reflexivity).
  assert (E3 : (Double.exactly 1024 == 1024)%Q) by (vm_compute; reflexivity).
  assert (E4 : (Double.exactly 1023.998046875 == 1024 - (1 # 512))%Q)
    by (vm_compute; reflexivity).
  rewrite E1, E2 in H1. rewrite E3, E4 in H2.
  assert (A1 : (Qabs (1 # 1024) == 1 # 1024)%Q) by reflexivity.
  assert (A2 : (Qabs 1024 == 1024)%Q) by reflexivity.
  rewrite A1 in H1. rewrite A2 in H2.
  destruct H2 as [H2 _]. specialize (H2 eq_refl).
  destruct H1 as [_ H1].
  assert (Hc : (c * (1 # 1024) < (1 # 1024) - 0)%Q) by lra.
  apply H1 in Hc. discriminate.
Qed.

(** ** Regions treated alike *)

Lemma double_actualIncrease_alike (space activeShare : float)
  (p q : Double.FlatPart.t) :
  Double.FlatPart.share p = Double.FlatPart.share q ->
  Double.headroomOf p = Double.headroomOf q ->
  Double.actualIncreaseOf space activeShare p
  = Double.actualIncreaseOf space activeShare q.
Proof.
  unfold Double.actualIncreaseOf, Double.headroomOf. intros -> ->. reflexivity.
Qed.

Lemma double_growPart_grown (priority space activeShare : float)
  (p : Double.FlatPart.t) :
  Double.atPriority priority p = true -> Double.atMax p = false ->
  Double.growPart priority space activeShare p
  = Double.FlatPart.setAllocatedSize p
      (Double.FlatPart.allocatedSize p
       + Double.actualIncreaseOf space activeShare p).
Proof.
  unfold Double.growPart. intros -> ->. reflexivity.
Qed.

(** Two parts with the same spec and the same size are grown to the same
    size. *)
Lemma double_growPart_twins (priority space activeShare : float)
  (p q : Double.FlatPart.t) :
  Double.specOf p = Double.specOf q ->
  Double.FlatPart.allocatedSize p = Double.FlatPart.allocatedSize q ->
  Double.FlatPart.allocatedSize (Double.growPart priority space activeShare p)
  = Double.FlatPart.allocatedSize (Double.growPart priority space activeShare q).
Proof.
  destruct p as [k i mn mx pr sh a], q as [k' i' mn' mx' pr' sh' a'].
  unfold Double.specOf. cbn. intros H E. injection H as -> -> -> ->. subst a'.
  unfold Double.growPart, Double.atPriority, Double.atMax,
    Double.actualIncreaseOf. cbn.
  destruct (_ && _); reflexivity.
Qed.

Lemma double_growPart_spec (priority space activeShare : float)
  (p : Double.FlatPart.t) :
  Double.specOf (Double.growPart priority space activeShare p) = Double.specOf p.
Proof.
  unfold Double.growPart.
  destruct (Double.atPriority priority p && negb (Double.atMax p)); reflexivity.
Qed.

Lemma double_twinsAt_round (i j : nat) (priority space activeShare : float)
  (flatParts : list Double.FlatPart.t) :
  Double.twinsAt i j flatParts ->
  Double.twinsAt i j (map (Double.growPart priority space activeShare) flatParts).
Proof.
  intros (p & q & Hp & Hq & Hs & Ha).
  exists (Double.growPart priority space activeShare p),
         (Double.growPart priority space activeShare q).
  split; [now apply map_nth_error|]. split; [now apply map_nth_error|].
  split; [now rewrite !double_growPart_spec|].
  now apply double_growPart_twins.
Qed.

Lemma double_twinsAt_allocateMin (i j : nat) (flatParts : list Double.FlatPart.t)
  (p q : Double.FlatPart.t) :
  nth_error flatParts i = Some p -> nth_error flatParts j = Some q ->
  Double.specOf p = Double.specOf q ->
  Double.twinsAt i j (Double.allocateMin flatParts).
Proof.
  intros Hp Hq Hs. unfold Double.allocateMin.
  eexists _, _. split; [apply map_nth_error; exact Hp|].
  split; [apply map_nth_error; exact Hq|].
  split; [exact Hs|].
  destruct p, q. unfold Double.specOf in Hs. cbn in *. congruence.
Qed.

(** C6, amended.  Every round is a simultaneous update: each part of the
    tier below its maximum is grown by an increase computed from the budget
    and the active share the round was entered with.  Two parts of the tier
    with equal share and equal headroom that are grown in a round are given
    the same [actualIncrease].  Two regions with equal [min], [max],
    [priority] and [share] have equal sizes after minimum allocation, after
    every round, and at the return. *)
Theorem C6_equal_increases (totalSize : float) (parts : Double.Parts)
  (d : Double.Distribution) :
  Double.distribute totalSize parts = Some d ->
  (forall t round,
     In t (Double.tiersOf d) -> In round (Double.rounds (Double.tierRun t)) ->
     Double.roundActiveShare round
     = Double.activeShareLoop
         (Double.partsAtPriorityOf (Double.tierPriority t)
            (Double.roundBefore round)) 0 /\
     Double.roundAfter round
     = map (Double.growPart (Double.tierPriority t) (Double.roundSpace round)
              (Double.roundActiveShare round)) (Double.roundBefore round) /\
     forall i j p q,
       nth_error (Double.roundBefore round) i = Some p ->
       nth_error (Double.roundBefore round) j = Some q ->
       Double.atPriority (Double.tierPriority t) p = true ->
       Double.atPriority (Double.tierPriority t) q = true ->
       Double.atMax p = false -> Double.atMax q = false ->
       Double.FlatPart.share p = Double.FlatPart.share q ->
       Double.headroomOf p = Double.headroomOf q ->
       exists actualIncrease,
         nth_error (Double.roundAfter round) i
         = Some (Double.FlatPart.setAllocatedSize p
                   (Double.FlatPart.allocatedSize p + actualIncrease)) /\
         nth_error (Double.roundAfter round) j
         = Some (Double.FlatPart.setAllocatedSize q
                   (Double.FlatPart.allocatedSize q + actualIncrease))) /\
  (forall i j p q,
     nth_error (Double.flatten parts) i = Some p ->
     nth_error (Double.flatten parts) j = Some q ->
     Double.specOf p = Double.specOf q ->
     Forall (Double.twinsAt i j) (Double.statesOf totalSize parts)).
Proof.
  intros Hd. split.
  - intros t round Ht Hr.
    destruct (double_distribute_invariant (fun _ => True) totalSize parts d)
      as [_ H]; auto.
    rewrite Forall_forall in H. destruct (H t Ht) as [_ Hrounds].
    rewrite Forall_forall in Hrounds.
    destruct (Hrounds round Hr) as (_ & _ & Hactive & Hafter & _).
    split; [assumption|]. split; [assumption|].
    intros i j p q Hp Hq Pp Pq Mp Mq Hshare Hroom.
    exists (Double.actualIncreaseOf (Double.roundSpace round)
              (Double.roundActiveShare round) p).
    rewrite Hafter. split.
    + rewrite <- (double_growPart_grown (Double.tierPriority t) _ _ p Pp Mp).
      now apply map_nth_error.
    + rewrite (double_actualIncrease_alike _ _ p q Hshare Hroom).
      rewrite <- (double_growPart_grown (Double.tierPriority t) _ _ q Pq Mq).
      now apply map_nth_error.
  - intros i j p q Hp Hq Hs.
    destruct (double_distribute_invariant (Double.twinsAt i j)
                totalSize parts d) as [Hfinal Htiers]; try assumption.
    + intros. now apply double_twinsAt_round.
    + now apply (double_twinsAt_allocateMin i j _ p q).
    + unfold Double.statesOf. rewrite Hd.
      constructor; [now apply (double_twinsAt_allocateMin i j _ p q)|].
      apply Forall_app. split; [|now constructor].
      apply Forall_flat_map. eapply Forall_impl; [|exact Htiers].
      intros t [_ Hrounds]. apply Forall_map.
      eapply Forall_impl; [|exact Hrounds].
      intros round (_ & _ & _ & _ & _ & Hafter). exact Hafter.
Qed.

(** The regions [a] and [b[0]] of [twinParts] have the same spec: the first
    round gives both 13.5, and they are returned at the same size. *)
Lemma C6_equal_increases_witness :
  exists d,
    Double.distribute 40 Double.twinParts = Some d /\
    map Double.FlatPart.allocatedSize (Double.flatPartsOf d)
    = [15.5; 15.5; 4.5; 4.5]%float /\
    (exists t round actualIncrease,
       In t (Double.tiersOf d) /\ In round (Double.rounds (Double.tierRun t)) /\
       option_map Double.FlatPart.allocatedSize
         (nth_error (Double.roundAfter round) 0)
       = Some (2 + actualIncrease)%float /\
       option_map Double.FlatPart.allocatedSize
         (nth_error (Double.roundAfter round) 1)
       = Some (2 + actualIncrease)%float) /\
    Forall (Double.twinsAt 0 1) (Double.statesOf 40 Double.twinParts).
Proof.
  destruct (Double.distribute 40 Double.twinParts) as [d|] eqn:Hd;
    [|vm_compute in Hd; discriminate].
  exists d. split; [reflexivity|].
  destruct (C6_equal_increases 40 Double.twinParts d Hd) as [Hround Htwins].
  vm_compute in Hd. injection Hd as Ed. subst d.
  split; [vm_compute; reflexivity|]. split.
  - match type of Hround with
    | forall t round, In t (Double.tiersOf ?d) -> _ =>
        destruct (Double.tiersOf d) as [|t ts] eqn:Et; [discriminate|]
    end.
    cbn [Double.tiersOf] in Et. injection Et as Et _.
    destruct (Double.rounds (Double.tierRun t)) as [|round rs] eqn:Er;
      [subst t; discriminate|].
    destruct (Hround t round) as (_ & _ & Hpair);
      [now left|rewrite Er; now left|].
    assert (Eb : Double.roundBefore round
                 = Double.allocateMin (Double.flatten Double.twinParts)).
    { subst t. cbn in Er. injection Er as <- _. vm_compute. reflexivity. }
    destruct (Double.roundBefore round) as [|p [|q l]] eqn:Eq;
      try discriminate.
    assert (Ep : p = Double.FlatPart.mk "a" None 2 30 0 3 2)
      by (vm_compute in Eb; now injection Eb).
    assert (Eq' : q = Double.FlatPart.mk "b" (Some 0%nat) 2 30 0 3 2)
      by (vm_compute in Eb; now injection Eb).
    destruct (Hpair 0%nat 1%nat p q) as [inc [H0 H1]];
      try reflexivity;
      try (subst p q t; vm_compute; reflexivity).
    exists t, round, inc.
    split; [now left|]. split; [rewrite Er; now left|].
    rewrite H0, H1. subst p q. split; reflexivity.
  - eapply (Htwins 0 1)%nat; vm_compute; reflexivity.
Defined.

(** C6 as stated fails: equal share and equal headroom do not give equal
    allocations.  In [{ a: { min: 0, max: 10 }, b: { min: 5, max: 15 } }]
    both regions have share 1 and headroom 10; with a total of 15 they are
    returned at 5 and 10.  Nor is the growth equal: in
    [{ a: { min: 0, max: 1 }, b: { min: 2, max: 3 } }] with a total of 2.6
    both are given 0.30000000000000004, and [b] is stored at 2.3. *)
Lemma C6_counterexample :
  map (fun p => (Double.FlatPart.share p, Double.headroomOf p))
    (Double.allocateMin (Double.flatten Double.unequalMinParts))
  = [(1, 10); (1, 10)]%float /\
  Double.distributeFlexBoxLayout 15 Double.unequalMinParts
  = Double.Sizes [("a"%string, 5%float); ("b"%string, 10%float)] /\
  map (fun p => (Double.FlatPart.share p, Double.headroomOf p))
    (Double.allocateMin (Double.flatten Double.shiftedParts))
  = [(1, 1); (1, 1)]%float /\
  Double.distributeFlexBoxLayout 2.6 Double.shiftedParts
  = Double.Sizes [("a"%string, 0.30000000000000004%float);
                  ("b"%string, 2.3%float)] /\
  Double.strictEq (2.3 - 2) (0.30000000000000004 - 0) = false.
Proof.
  repeat split; vm_compute; reflexivity.
Qed.

(** ** Iterations and part visits *)






(** ** The code against its docstring *)

(** C1.  The docstring promises that the returned sizes sum to [totalSize]
    (line 24).  [distributeFlexBoxLayout(100, { a: { share: 0 } })] passes
    the test of lines 78-88 and returns [a = 0]: the tier is skipped at line
    109 and the budget of 100 is dropped.  So does
    [distributeFlexBoxLayout(0.5, { a: { max: 1/4096, share: 1023 }, b: {} })],
    whose first round hands out [3/4096 < 0.001]: line 150 leaves the tier
    although [b] is unbounded, and the sizes sum to [3/4096]. *)
Theorem C1_sum_falls_short :
  Double.feasibleAsTested 100 Double.zeroShareParts /\
  Double.distributeFlexBoxLayout 100 Double.zeroShareParts
  = Double.Sizes [("a"%string, 0%float)] /\
  Double.missesTotal 100 (Double.distributeFlexBoxLayout 100 Double.zeroShareParts) /\
  Double.feasibleAsTested 0.5 Double.negligibleRoundParts /\
  Double.distributeFlexBoxLayout 0.5 Double.negligibleRoundParts
  = Double.Sizes [("a"%string, 0.000244140625%float);
                  ("b"%string, 0.00048828125%float)] /\
  Double.missesTotal 0.5
    (Double.distributeFlexBoxLayout 0.5 Double.negligibleRoundParts).
Proof.
  repeat split; vm_compute; reflexivity.
Qed.

(** C3.  Line 142 caps the increase at [max - allocatedSize] so that the
    part ends at its maximum, but the two roundings of lines 141 and 144 do
    not cancel: [distributeFlexBoxLayout(0.9, { a: { min: 0.3, max: 0.9 } })]
    computes [0.9 - 0.3 = 0.6000000000000001] and returns
    [a = 0.3 + 0.6000000000000001 = 0.9000000000000001], above its maximum.
    A negative share, which nothing rejects, takes a region below its
    minimum: [{ a: { share: -1 }, b: { share: 3 } }] with 10 returns
    [a = -5]. *)
Theorem C3_bounds_are_exceeded :
  Double.finalRows 0.9 Double.clampedParts
  = [(0, 1, 0.3, 0.9000000000000001, 0.9)%float] /\
  Double.le 0.3 0.9 = true /\
  Double.gt 0.9000000000000001 0.9 = true /\
  Double.distributeFlexBoxLayout 0.9 Double.clampedParts
  = Double.Sizes [("a"%string, 0.9000000000000001%float)] /\
  Double.finalRows 10 Double.negativeShareParts
  = [(0, -1, 0, -5, infinity); (0, 3, 0, 15, infinity)]%float /\
  Double.lt (-5) 0 = true.
Proof.
  repeat split; vm_compute; reflexivity.
Qed.

(** C4.  The docstring hands the remaining space to the highest priority
    first, as long as the max constraint allows it (lines 27-28).  In
    [{ a: { max: 1/4096, priority: 1, share: 1023 }, b: { max: 1, priority: 1 },
    c: {} }] with a total of 0.5 the first round of tier 1 hands out
    [3/4096 < 0.001] and line 150 leaves the tier: [b], of priority 1 and
    share 1, is returned at [1/2048], far below its maximum 1, while [c], of
    priority 0, takes the rest. *)
Theorem C4_lower_tier_served_first :
  Double.finalRows 0.5 Double.abandonedTierParts
  = [ (1, 1023, 0, 0.000244140625, 0.000244140625);
      (1, 1, 0, 0.00048828125, 1);
      (0, 1, 0, 0.499267578125, infinity) ]%float /\
  Double.lt 0.00048828125 1 = true /\
  Double.gt 0.499267578125 0 = true /\
  Double.gt 1 0 = true /\
  Double.distributeFlexBoxLayout 0.5 Double.abandonedTierParts
  = Double.Sizes [ ("a"%string, 0.000244140625%float);
                   ("b"%string, 0.00048828125%float);
                   ("c"%string, 0.499267578125%float) ].
Proof.
  repeat split; vm_compute; reflexivity.
Qed.

(** ** The scenarios on binary64 numbers *)

(** The call of lines 7-11 and the all-defaults call round nothing: on
    binary64 numbers they return the sizes of the exact reading. *)
Lemma double_scenarios :
  Double.distributeFlexBoxLayout 1000 Double.layoutParts
  = Double.Sizes [ ("spaceBefore"%string, 100%float);
                   ("content"%string, 600%float);
                   ("spaceAfter"%string, 300%float) ] /\
  Double.distributeFlexBoxLayout 100
    [ ("a"%string, Double.Single Double.emptyPart);
      ("b"%string, Double.Single Double.emptyPart) ]
  = Double.Sizes [("a"%string, 50%float); ("b"%string, 50%float)].
Proof.
  split; vm_compute; reflexivity.
Qed.
